(** * custom_shelf: a shallow embedding of [CustomShelf] (custom_shelf.py)

    The class scans a directory tree and renders a Maya shelf from it.
    Three collaborators of the class are modelled explicitly:
    - Python strings are lists of characters ([str]); every character is an
      [ascii] code, so the model covers code points below 256;
    - the file system is a finite tree of directories and regular files,
      paths are POSIX strings resolved from the tree's root (which is also
      the working directory);
    - the host toolkit ([maya.cmds]) is an in-memory store of shelf layouts
      and the widgets created under them.
    Python exceptions are values of [exn]; every method is a function into
    [result]. *)

From Stdlib Require Import Ascii String List Bool Arith Lia Sorted Permutation.
Import ListNotations.
Local Open Scope list_scope.

Set Warnings "-register-all".


(* ------------------------------------------------------------------ *)
(** ** Python strings *)

Definition str := list ascii.

(** A literal: [py "abc"] is the Python string ['abc']. *)
Definition py (s : string) : str := list_ascii_of_string s.

Definition chr_eqb (a b : ascii) : bool := Ascii.eqb a b.

Fixpoint str_eqb (a b : str) : bool :=
  match a, b with
  | [], [] => true
  | x :: a', y :: b' => chr_eqb x y && str_eqb a' b'
  | _, _ => false
  end.

(** [a < b] on characters is the order of their codes. *)
Definition chr_ltb (a b : ascii) : bool := nat_of_ascii a <? nat_of_ascii b.

(** [a <= b] on Python strings: lexicographic on character codes. *)
Fixpoint str_leb (a b : str) : bool :=
  match a, b with
  | [], _ => true
  | _ :: _, [] => false
  | x :: a', y :: b' =>
      if chr_ltb x y then true
      else if chr_ltb y x then false
      else str_leb a' b'
  end.

(** [s.replace(old, new)] for one-character [old] and [new]. *)
Definition replace_chr (old new : ascii) (s : str) : str :=
  map (fun c => if chr_eqb c old then new else c) s.

(** [s.split(sep)[0]]: the part of [s] before the first [sep]. *)
Fixpoint split_first (sep : ascii) (s : str) : str :=
  match s with
  | [] => []
  | c :: t => if chr_eqb c sep then [] else c :: split_first sep t
  end.

(** [s.split(sep)] for a one-character separator. *)
Fixpoint split_chr (sep : ascii) (s : str) : list str :=
  match s with
  | [] => [[]]
  | c :: t =>
      if chr_eqb c sep then [] :: split_chr sep t
      else match split_chr sep t with
           | [] => [[c]]
           | w :: ws => (c :: w) :: ws
           end
  end.

(** [x in l] and [l.remove(x)] (first occurrence only) on lists of strings. *)
Fixpoint str_in (x : str) (l : list str) : bool :=
  match l with
  | [] => false
  | y :: t => str_eqb x y || str_in x t
  end.

Fixpoint list_remove (x : str) (l : list str) : list str :=
  match l with
  | [] => []
  | y :: t => if str_eqb y x then t else y :: list_remove x t
  end.

(** [l.sort()] on a list of strings.  The order is total, so the sorted
    list does not depend on the algorithm; insertion sort is used here. *)
Fixpoint sort_insert (x : str) (l : list str) : list str :=
  match l with
  | [] => [x]
  | y :: t => if str_leb x y then x :: y :: t else y :: sort_insert x t
  end.

Fixpoint py_sort (l : list str) : list str :=
  match l with
  | [] => []
  | x :: t => sort_insert x (py_sort t)
  end.

(* ------------------------------------------------------------------ *)
(** ** Dictionaries

    A Python [dict] keeps its keys in insertion order and the rendering
    loops iterate in that order, so a dictionary is an association list.
    Assigning to a key that is present keeps the key's position. *)

Definition dict (V : Type) := list (str * V).

Fixpoint dict_get {V} (k : str) (d : dict V) : option V :=
  match d with
  | [] => None
  | (k', v) :: t => if str_eqb k' k then Some v else dict_get k t
  end.

Fixpoint dict_set {V} (k : str) (v : V) (d : dict V) : dict V :=
  match d with
  | [] => [(k, v)]
  | (k', v') :: t =>
      if str_eqb k' k then (k', v) :: t else (k', v') :: dict_set k v t
  end.

Definition dict_keys {V} (d : dict V) : list str := map fst d.

(* ------------------------------------------------------------------ *)
(** ** Exceptions and results *)

Inductive exn :=
| KeyError (key : str)
| FileNotFoundError (path : str)
| NotADirectoryError (path : str)
| FileExistsError (path : str)
| IndexError
| HostError                 (* the host toolkit's RuntimeError *)
| RecursionError
| OutsideModel (what : str).
    (* not modelled: a name spliced into a pattern that contains a regex
       metacharacter other than [.] (Python either raises [re.error] or
       gives the character its regex meaning), and [..] in [os.makedirs] *)

Inductive result (A : Type) :=
| Ok (a : A)
| Raise (e : exn).
Arguments Ok {A} a.
Arguments Raise {A} e.

Definition bind {A B} (m : result A) (f : A -> result B) : result B :=
  match m with
  | Ok a => f a
  | Raise e => Raise e
  end.

Notation "x <- m ;; k" := (bind m (fun x => k))
  (at level 61, m at next level, right associativity).
Notation "' p <- m ;; k" := (bind m (fun x => match x with p => k end))
  (at level 61, p pattern, m at next level, right associativity).

(* ------------------------------------------------------------------ *)
(** ** Regular expressions ([re])

    The patterns of the source are built from literal characters, [.],
    alternation, grouping and a final [$].  [re_run] is a backtracking
    matcher with Python's priorities (left alternative first); it tries to
    match [r] at the start of [s] and hands the rest of the input to the
    continuation. *)

Inductive regex :=
| Eps
| Chr (c : ascii)
| Dot                         (* any character but a newline *)
| Eol                         (* [$]: the end, or just before a final newline *)
| Seq (r1 r2 : regex)
| Alt (r1 r2 : regex).

Definition newline : ascii := "010"%char.

Definition orelse {A} (a b : option A) : option A :=
  match a with
  | Some _ => a
  | None => b
  end.

Fixpoint re_run {A} (r : regex) (s : str) (k : str -> option A) : option A :=
  match r with
  | Eps => k s
  | Chr c =>
      match s with
      | x :: t => if chr_eqb x c then k t else None
      | [] => None
      end
  | Dot =>
      match s with
      | x :: t => if chr_eqb x newline then None else k t
      | [] => None
      end
  | Eol =>
      match s with
      | [] => k s
      | [x] => if chr_eqb x newline then k s else None
      | _ => None
      end
  | Seq r1 r2 => re_run r1 s (fun s' => re_run r2 s' k)
  | Alt r1 r2 => orelse (re_run r1 s k) (re_run r2 s k)
  end.

(** [re.match]: the input left after the first match at the start of [s]. *)
Definition re_match_rest (r : regex) (s : str) : option str :=
  re_run r s (fun rest => Some rest).

Definition is_some {A} (o : option A) : bool :=
  match o with
  | Some _ => true
  | None => false
  end.

(** [re.search(r, s)] as a truth value: a match starting anywhere in [s]. *)
Fixpoint re_search (r : regex) (s : str) : bool :=
  is_some (re_match_rest r s) ||
  match s with
  | [] => false
  | _ :: t => re_search r t
  end.

(** [re.sub(r, repl, s)]: every leftmost non-overlapping match replaced.
    [skip] counts the characters of [s] still covered by the match found
    last.  An empty match is replaced where it stands (Python 3.7 and
    later); the patterns of the source never match the empty string. *)
Fixpoint re_sub_from (r : regex) (repl : str) (skip : nat) (s : str) : str :=
  match s with
  | [] =>
      match skip, re_match_rest r [] with
      | 0, Some _ => repl
      | _, _ => []
      end
  | c :: t =>
      match skip with
      | S n => re_sub_from r repl n t
      | 0 =>
          match re_match_rest r s with
          | Some rest =>
              match length s - length rest with
              | 0 => repl ++ c :: re_sub_from r repl 0 t
              | S n => repl ++ re_sub_from r repl n t
              end
          | None => c :: re_sub_from r repl 0 t
          end
      end
  end.

Definition re_sub (r : regex) (repl s : str) : str := re_sub_from r repl 0 s.

(** A literal word as a pattern. *)
Fixpoint lit (w : str) : regex :=
  match w with
  | [] => Eps
  | c :: t => Seq (Chr c) (lit t)
  end.

(** The characters with a meaning of their own in a pattern. *)
Definition is_meta (c : ascii) : bool :=
  existsb (chr_eqb c) (py "\^$*+?{}[]|()").

(** A name spliced into a pattern by [str.format]: a [.] of the name is the
    wildcard, every other non-meta character stands for itself. *)
Fixpoint re_of_name (name : str) : option regex :=
  match name with
  | [] => Some Eps
  | c :: t =>
      if is_meta c then None
      else match re_of_name t with
           | None => None
           | Some r => Some (Seq (if chr_eqb c "."%char then Dot else Chr c) r)
           end
  end.

(** ["(.py|.mel)$"] *)
Definition re_script : regex :=
  Seq (Alt (Seq Dot (lit (py "py"))) (Seq Dot (lit (py "mel")))) Eol.

(** ["(_dcc.py|_dcc.mel)$"] *)
Definition re_dcc : regex :=
  Seq (Alt (Seq (lit (py "_dcc")) (Seq Dot (lit (py "py"))))
           (Seq (lit (py "_dcc")) (Seq Dot (lit (py "mel"))))) Eol.

(** [".py$"] and [".mel$"] *)
Definition re_py : regex := Seq (Seq Dot (lit (py "py"))) Eol.
Definition re_mel : regex := Seq (Seq Dot (lit (py "mel"))) Eol.

(** ["__init__.py$"] *)
Definition re_init : regex :=
  Seq (Seq (lit (py "__init__")) (Seq Dot (lit (py "py")))) Eol.

(** ["({})(.py|.mel)$".format(tool_name)] *)
Definition re_named_script (tool_name : str) : result regex :=
  match re_of_name tool_name with
  | Some r => Ok (Seq r re_script)
  | None => Raise (OutsideModel tool_name)
  end.

(** ["({})(.png|.jpg|jpeg|.svg)$".format(tool_name)] *)
Definition re_named_icon (tool_name : str) : result regex :=
  match re_of_name tool_name with
  | Some r =>
      Ok (Seq r (Seq (Alt (Seq Dot (lit (py "png")))
                     (Alt (Seq Dot (lit (py "jpg")))
                     (Alt (lit (py "jpeg"))
                          (Seq Dot (lit (py "svg")))))) Eol))
  | None => Raise (OutsideModel tool_name)
  end.

(* ------------------------------------------------------------------ *)
(** ** Paths ([os.path], POSIX flavour) *)

Definition slash : ascii := "/"%char.

Definition starts_with_slash (p : str) : bool :=
  match p with
  | c :: _ => chr_eqb c slash
  | [] => false
  end.

Definition ends_with_slash (p : str) : bool :=
  match rev p with
  | c :: _ => chr_eqb c slash
  | [] => false
  end.

(** [os.path.join(a, b)] *)
Definition path_join (a b : str) : str :=
  if starts_with_slash b then b
  else match a with
       | [] => b
       | _ => if ends_with_slash a then a ++ b else a ++ slash :: b
       end.

(** [p] cut after its last slash: [(p[:i], p[i:])] with [i = p.rfind('/') + 1];
    [None] when [p] has no slash. *)
Fixpoint rsplit_slash (p : str) : option (str * str) :=
  match p with
  | [] => None
  | c :: t =>
      match rsplit_slash t with
      | Some (h, b) => Some (c :: h, b)
      | None => if chr_eqb c slash then Some ([c], t) else None
      end
  end.

(** [os.path.basename(p)] *)
Definition basename (p : str) : str :=
  match rsplit_slash p with
  | Some (_, b) => b
  | None => p
  end.

(** [h.rstrip('/')] *)
Fixpoint rstrip_slash (h : str) : str :=
  match h with
  | [] => []
  | c :: t =>
      match rstrip_slash t with
      | [] => if chr_eqb c slash then [] else [c]
      | t' => c :: t'
      end
  end.

(** [os.path.dirname(p)]: the head, without its trailing slashes unless it
    consists of slashes only. *)
Definition dirname (p : str) : str :=
  match rsplit_slash p with
  | Some (h, _) =>
      match rstrip_slash h with
      | [] => h
      | h' => h'
      end
  | None => []
  end.

(* ------------------------------------------------------------------ *)
(** ** The file system

    A directory lists its entries in the order [os.listdir] returns them,
    which Python leaves unspecified: a statement for every [node] holds for
    every listing order. *)

Inductive node :=
| File
| Dir (entries : list (str * node)).

Fixpoint entry_get (name : str) (es : list (str * node)) : option node :=
  match es with
  | [] => None
  | (n, x) :: t => if str_eqb n name then Some x else entry_get name t
  end.

Definition dot : str := py ".".
Definition dotdot : str := py "..".

(** Path resolution from [cur], whose ancestors are [anc] (nearest first). *)
Fixpoint walk (cur : node) (anc : list node) (comps : list str) : option node :=
  match comps with
  | [] => Some cur
  | c :: cs =>
      match cur with
      | File => None
      | Dir es =>
          if str_eqb c [] || str_eqb c dot then walk cur anc cs
          else if str_eqb c dotdot then
            match anc with
            | [] => walk cur [] cs
            | p :: anc' => walk p anc' cs
            end
          else match entry_get c es with
               | Some n => walk n (cur :: anc) cs
               | None => None
               end
      end
  end.

(** The node a path names; the empty path names nothing. *)
Definition resolve (fs : node) (p : str) : option node :=
  match p with
  | [] => None
  | _ => walk fs [] (split_chr slash p)
  end.

(** [os.path.exists(p)] and [os.path.isdir(p)] *)
Definition path_exists (fs : node) (p : str) : bool := is_some (resolve fs p).

Definition path_isdir (fs : node) (p : str) : bool :=
  match resolve fs p with
  | Some (Dir _) => true
  | _ => false
  end.

(** [os.listdir(p)] *)
Definition listdir (fs : node) (p : str) : result (list str) :=
  match resolve fs p with
  | Some (Dir es) => Ok (map fst es)
  | Some File => Raise (NotADirectoryError p)
  | None => Raise (FileNotFoundError p)
  end.

(** A chain of fresh nested directories, one per component. *)
Fixpoint fresh_dirs (comps : list str) : result node :=
  match comps with
  | [] => Ok (Dir [])
  | c :: cs =>
      if str_eqb c [] || str_eqb c dot then fresh_dirs cs
      else if str_eqb c dotdot then Raise (OutsideModel c)
      else n <- fresh_dirs cs ;; Ok (Dir [(c, n)])
  end.

Fixpoint entry_set (name : str) (x : node) (es : list (str * node))
  : list (str * node) :=
  match es with
  | [] => [(name, x)]
  | (n, y) :: t =>
      if str_eqb n name then (n, x) :: t else (n, y) :: entry_set name x t
  end.

(** [os.makedirs(p)] below [cur]: missing directories are created, the
    last one included; [created] records whether one was.  A [..] in the
    path is outside the model. *)
Fixpoint makedirs_from (p : str) (cur : node) (created : bool)
  (comps : list str) : result node :=
  match comps with
  | [] => if created then Ok cur else Raise (FileExistsError p)
  | c :: cs =>
      match cur with
      | File => Raise (NotADirectoryError p)
      | Dir es =>
          if str_eqb c [] || str_eqb c dot then makedirs_from p cur created cs
          else if str_eqb c dotdot then Raise (OutsideModel c)
          else match entry_get c es with
               | Some n =>
                   n' <- makedirs_from p n created cs ;;
                   Ok (Dir (entry_set c n' es))
               | None =>
                   n' <- fresh_dirs cs ;;
                   Ok (Dir (es ++ [(c, n')]))
               end
      end
  end.

Definition makedirs (fs : node) (p : str) : result node :=
  match p with
  | [] => Raise (FileNotFoundError p)
  | _ => makedirs_from p fs false (split_chr slash p)
  end.

(* ------------------------------------------------------------------ *)
(** ** The host toolkit ([maya.cmds])

    An in-memory stand-in for the calls the class makes.  A widget gets a
    fresh identifier when it is created; a shelf button owns one popup
    menu, whose handle is the button's identifier.  Widgets are kept per
    shelf layout, in creation order. *)

Inductive widget :=
| ShelfButton (id : nat) (label command : str) (sourceType : option str)
    (image doubleClickCommand : str)
| MenuItem (id : nat) (label sourceType : str) (parent : nat) (command : str)
| Separator (id : nat).

Record ui := {
  next_id : nat;
  layouts : dict (list widget)
}.

Definition ui_empty : ui := {| next_id := 0; layouts := [] |}.

(** [cmds.shelfLayout(name, q=True, exists=True)] *)
Definition shelfLayout_exists (name : str) (u : ui) : bool :=
  is_some (dict_get name (layouts u)).

(** [cmds.shelfLayout(name, parent="ShelfLayout")] *)
Definition shelfLayout_create (name : str) (u : ui) : result (str * ui) :=
  if shelfLayout_exists name u then Raise HostError
  else Ok (name, {| next_id := next_id u;
                    layouts := dict_set name [] (layouts u) |}).

Fixpoint dict_del {V} (k : str) (d : dict V) : dict V :=
  match d with
  | [] => []
  | (k', v) :: t =>
      if str_eqb k' k then dict_del k t else (k', v) :: dict_del k t
  end.

(** [cmds.deleteUI(name)]: the layout goes with everything under it. *)
Definition deleteUI (name : str) (u : ui) : result ui :=
  if shelfLayout_exists name u
  then Ok {| next_id := next_id u; layouts := dict_del name (layouts u) |}
  else Raise HostError.

(** A widget added under layout [parent]; [mk] receives the fresh id. *)
Definition add_widget (parent : option str) (mk : nat -> widget) (u : ui)
  : result (nat * ui) :=
  match parent with
  | None => Raise HostError
  | Some name =>
      match dict_get name (layouts u) with
      | None => Raise HostError
      | Some ws =>
          Ok (next_id u,
              {| next_id := S (next_id u);
                 layouts := dict_set name (ws ++ [mk (next_id u)]) (layouts u) |})
      end
  end.

(** [cmds.shelfButton(l=.., command=.., sourceType=.., image=.., parent=..,
    doubleClickCommand=..)]; a command that is not passed is empty. *)
Definition shelfButton (label command : str) (sourceType : option str)
  (image : str) (parent : option str) (dcc : str) (u : ui) : result (nat * ui) :=
  add_widget parent
    (fun id => ShelfButton id label command sourceType image dcc) u.

(** [cmds.separator(.., parent=..)] *)
Definition separator (parent : option str) (u : ui) : result (nat * ui) :=
  add_widget parent Separator u.

Definition is_button (id : nat) (w : widget) : bool :=
  match w with
  | ShelfButton id' _ _ _ _ _ => id' =? id
  | _ => false
  end.

(** [cmds.shelfButton(button, q=True, popupMenuArray=True)] *)
Definition popupMenuArray (button : nat) (u : ui) : result (list nat) :=
  if existsb (fun l => existsb (is_button button) (snd l)) (layouts u)
  then Ok [button]
  else Raise HostError.

Fixpoint add_item_to (popup : nat) (w : widget) (ls : dict (list widget))
  : option (dict (list widget)) :=
  match ls with
  | [] => None
  | (name, ws) :: t =>
      if existsb (is_button popup) ws then Some ((name, ws ++ [w]) :: t)
      else match add_item_to popup w t with
           | Some t' => Some ((name, ws) :: t')
           | None => None
           end
  end.

(** [cmds.menuItem(label=.., sourceType=.., parent=popup, command=..)]: the
    item is stored in the layout of the button that owns [popup]. *)
Definition menuItem (label sourceType : str) (popup : nat) (command : str)
  (u : ui) : result (nat * ui) :=
  match add_item_to popup
          (MenuItem (next_id u) label sourceType popup command) (layouts u) with
  | Some ls => Ok (next_id u, {| next_id := S (next_id u); layouts := ls |})
  | None => Raise HostError
  end.

(** The file system and the host's widgets: what the methods act on
    besides the object itself. *)
Record world := {
  fs : node;
  host : ui
}.

(* ------------------------------------------------------------------ *)
(** ** class CustomShelf *)

Record CustomShelf := {
  shelf_directory : str;
  icon_path : str;
  shelf_name : str;
  categories : list str;
  popup_tool_dict : dict (dict (list str));
  tool_paths : dict (list str);
  popup_menus : dict nat;
  shelf : option str
}.

Definition set_categories (self : CustomShelf) (v : list str) : CustomShelf :=
  {| shelf_directory := shelf_directory self; icon_path := icon_path self;
     shelf_name := shelf_name self; categories := v;
     popup_tool_dict := popup_tool_dict self; tool_paths := tool_paths self;
     popup_menus := popup_menus self; shelf := shelf self |}.

Definition set_popup_tool_dict (self : CustomShelf)
  (v : dict (dict (list str))) : CustomShelf :=
  {| shelf_directory := shelf_directory self; icon_path := icon_path self;
     shelf_name := shelf_name self; categories := categories self;
     popup_tool_dict := v; tool_paths := tool_paths self;
     popup_menus := popup_menus self; shelf := shelf self |}.

Definition set_tool_paths (self : CustomShelf) (v : dict (list str))
  : CustomShelf :=
  {| shelf_directory := shelf_directory self; icon_path := icon_path self;
     shelf_name := shelf_name self; categories := categories self;
     popup_tool_dict := popup_tool_dict self; tool_paths := v;
     popup_menus := popup_menus self; shelf := shelf self |}.

Definition set_popup_menus (self : CustomShelf) (v : dict nat) : CustomShelf :=
  {| shelf_directory := shelf_directory self; icon_path := icon_path self;
     shelf_name := shelf_name self; categories := categories self;
     popup_tool_dict := popup_tool_dict self; tool_paths := tool_paths self;
     popup_menus := v; shelf := shelf self |}.

Definition set_shelf (self : CustomShelf) (v : option str) : CustomShelf :=
  {| shelf_directory := shelf_directory self; icon_path := icon_path self;
     shelf_name := shelf_name self; categories := categories self;
     popup_tool_dict := popup_tool_dict self; tool_paths := tool_paths self;
     popup_menus := popup_menus self; shelf := v |}.

(** [d[k]], raising [KeyError] *)
Definition dict_item {V} (k : str) (d : dict V) : result V :=
  match dict_get k d with
  | Some v => Ok v
  | None => Raise (KeyError k)
  end.

(** *** Utils *)

Definition dquote : ascii := "034"%char.
Definition underscore : ascii := "_"%char.
Definition space : ascii := " "%char.

(** ['exec(open("{}").read())'.format(file_path)] *)
Definition python_command (file_path : str) : str :=
  py "exec(open(" ++ dquote :: file_path ++ dquote :: py ").read())".

(** ['import maya.mel; maya.mel.eval(\'source "{}"\')'.format(file_path)] *)
Definition mel_command (file_path : str) : str :=
  py "import maya.mel; maya.mel.eval('source " ++
  dquote :: file_path ++ dquote :: py "')".

Definition filter_py_mel (file_path : str) : str * str :=
  if re_search re_py file_path then
    (re_sub re_py [] (basename file_path), python_command file_path)
  else if re_search re_mel file_path then
    (re_sub re_mel [] (basename file_path), mel_command file_path)
  else ([], []).

(** [os.path.join(os.path.dirname(script_path),
    os.path.basename(script_path).split(".")[0])] *)
Definition dcc_script_without_extention (script_path : str) : str :=
  path_join (dirname script_path)
            (split_first "."%char (basename script_path)).

Definition find_dcc_command (fs : node) (script_path : str) : str :=
  let mel_script := dcc_script_without_extention script_path ++ py "_dcc.mel" in
  let python_script := dcc_script_without_extention script_path ++ py "_dcc.py" in
  if path_exists fs mel_script then mel_script
  else if path_exists fs python_script then python_script
  else [].

Definition default_icon : str := py "commandButton.png".

(** The icon loop: the first listed file the pattern finds, else the
    default.  The pattern is compiled at the first [re.search], so only
    when the directory lists a file. *)
Definition pick_icon (tool_name : str) (names : list str) : result str :=
  match names with
  | [] => Ok default_icon
  | _ =>
      r <- re_named_icon tool_name ;;
      Ok (match find (re_search r) names with
          | Some icon_file => icon_file
          | None => default_icon
          end)
  end.

Definition find_icon (self : CustomShelf) (tool_name : str) (fs : node)
  : result (str * node) :=
  if negb (path_exists fs (icon_path self)) then
    fs' <- makedirs fs (icon_path self) ;;
    Ok (default_icon, fs')
  else
    names <- listdir fs (icon_path self) ;;
    tool_icon_file <- pick_icon tool_name names ;;
    Ok (path_join (icon_path self) tool_icon_file, fs).

(** *** Discovery *)

(** The filter of the flat tools: a script that is not a dcc command. *)
Definition is_tool_file (tool_file : str) : bool :=
  re_search re_script tool_file && negb (re_search re_dcc tool_file).

Definition get_tools_from_dir (self : CustomShelf) (directory category : str)
  (fs : node) : result CustomShelf :=
  let category_dir := path_join directory category in
  names <- listdir fs category_dir ;;
  Ok (set_tool_paths self
        (dict_set category
           (map (path_join category_dir) (filter is_tool_file names))
           (tool_paths self))).

(** The test of the popup filter: the item is to be removed. *)
Definition is_rejected (item_path : str) : bool :=
  re_search re_dcc item_path || negb (re_search re_script item_path).

(** [for item in l: if is_rejected(item): l.remove(item)] with Python's
    list iterator: it holds an index [i] into the list being changed and
    stops when [i] reaches the current length.  Each round advances [i],
    so [length l] rounds are enough ([remove_loop_fuel]). *)
Fixpoint remove_loop (fuel i : nat) (l : list str) : list str :=
  match fuel with
  | 0 => l
  | S fuel' =>
      match nth_error l i with
      | None => l
      | Some item_path =>
          if is_rejected item_path
          then remove_loop fuel' (S i) (list_remove item_path l)
          else remove_loop fuel' (S i) l
      end
  end.

Definition filter_in_place (l : list str) : list str :=
  remove_loop (length l) 0 l.

Fixpoint popup_tools_loop (fs : node) (category_dir : str) (tools : list str)
  (temp_dict : dict (list str)) : result (dict (list str)) :=
  match tools with
  | [] => Ok temp_dict
  | tool :: rest =>
      let tool_path := path_join category_dir tool in
      if path_isdir fs tool_path then
        items <- listdir fs tool_path ;;
        popup_tools_loop fs category_dir rest
          (dict_set tool_path
             (filter_in_place (map (path_join tool_path) items)) temp_dict)
      else popup_tools_loop fs category_dir rest temp_dict
  end.

Definition get_popup_tools_from_dir (self : CustomShelf)
  (directory category : str) (fs : node) : result CustomShelf :=
  let category_dir := path_join directory category in
  names <- listdir fs category_dir ;;
  temp_dict <- popup_tools_loop fs category_dir names [] ;;
  Ok (set_popup_tool_dict self
        (dict_set category temp_dict (popup_tool_dict self))).

Fixpoint categories_loop (self : CustomShelf) (shelf_directory : str)
  (cats : list str) (fs : node) : result CustomShelf :=
  match cats with
  | [] => Ok self
  | category :: rest =>
      self1 <- get_tools_from_dir self shelf_directory category fs ;;
      self2 <- get_popup_tools_from_dir self1 shelf_directory category fs ;;
      categories_loop self2 shelf_directory rest fs
  end.

Definition icons : str := py "icons".

Definition get_all_tools (self : CustomShelf) (shelf_directory : str)
  (fs : node) : result CustomShelf :=
  if negb (path_exists fs shelf_directory) then Ok self
  else
    names <- listdir fs shelf_directory ;;
    let sorted := py_sort names in
    let cats := if str_in icons sorted then list_remove icons sorted
                else sorted in
    categories_loop (set_categories self cats) shelf_directory cats fs.

(** [CustomShelf(shelf_directory, shelf_name)] *)
Definition init (shelf_directory shelf_name : str) (fs : node)
  : result CustomShelf :=
  get_all_tools
    {| shelf_directory := shelf_directory;
       icon_path := path_join shelf_directory icons;
       shelf_name := shelf_name;
       categories := [];
       popup_tool_dict := [];
       tool_paths := [];
       popup_menus := [];
       shelf := None |}
    shelf_directory fs.

(** *** Rendering *)

Definition python : str := py "python".

Fixpoint add_buttons_from_path (self : CustomShelf) (tool_paths : list str)
  (w : world) : result (list nat * world) :=
  match tool_paths with
  | [] => Ok ([], w)
  | path :: rest =>
      let tool_name := fst (filter_py_mel path) in
      let command1 := snd (filter_py_mel path) in
      '(icon, fs1) <- find_icon self tool_name (fs w) ;;
      let command2_script := find_dcc_command fs1 path in
      let command2 := snd (filter_py_mel command2_script) in
      let tool_name := replace_chr underscore space tool_name in
      '(button, u1) <-
        shelfButton tool_name command1 None icon (shelf self) command2 (host w) ;;
      '(shelf_butons, w') <-
        add_buttons_from_path self rest {| fs := fs1; host := u1 |} ;;
      Ok (button :: shelf_butons, w')
  end.

(** The first loop of [add_popup_button_from_paths]: the first script the
    pattern built from the folder's name finds is taken out of the list. *)
Definition take_button_script (tool_name : str) (scripts : list str)
  : result (option str * list str) :=
  match scripts with
  | [] => Ok (None, scripts)
  | _ =>
      r <- re_named_script tool_name ;;
      match find (fun script_path => re_search r (basename script_path))
                 scripts with
      | Some script_path => Ok (Some script_path, list_remove script_path scripts)
      | None => Ok (None, scripts)
      end
  end.

(** [l[0]] *)
Definition first {A} (l : list A) : result A :=
  match l with
  | x :: _ => Ok x
  | [] => Raise IndexError
  end.

(** The second loop: one menu item per remaining script, bar [__init__.py]. *)
Fixpoint add_menu_items (popup : nat) (scripts : list str) (u : ui)
  : result ui :=
  match scripts with
  | [] => Ok u
  | script_path :: rest =>
      if re_search re_init script_path then add_menu_items popup rest u
      else
        let filters := filter_py_mel script_path in
        let item_name := replace_chr underscore space (fst filters) in
        '(_, u1) <- menuItem item_name python popup (snd filters) u ;;
        add_menu_items popup rest u1
  end.

(** One round of the loop over the folders.  [popup_tool_dict] is the
    dictionary object the caller passed; the round removes the button's
    script from the list stored in it, so the changed dictionary is
    returned together with the object and the world. *)
Definition add_popup_button (self : CustomShelf) (tool_path : str)
  (popup_tool_dict : dict (list str)) (w : world)
  : result (CustomShelf * dict (list str) * world) :=
  let tool_name := basename tool_path in
  scripts <- dict_item tool_path popup_tool_dict ;;
  '(button_script_path, scripts1) <- take_button_script tool_name scripts ;;
  let popup_tool_dict1 := dict_set tool_path scripts1 popup_tool_dict in
  '(new_button, w1) <-
    match button_script_path with
    | Some script_path =>
        '(buttons, w1) <- add_buttons_from_path self [script_path] w ;;
        b <- first buttons ;;
        Ok (b, w1)
    | None =>
        '(icon, fs1) <- find_icon self tool_name (fs w) ;;
        '(b, u1) <- shelfButton tool_name [] None icon (shelf self) [] (host w) ;;
        Ok (b, {| fs := fs1; host := u1 |})
    end ;;
  menus <- popupMenuArray new_button (host w1) ;;
  popup <- first menus ;;
  let self1 := set_popup_menus self (dict_set tool_name popup (popup_menus self)) in
  u2 <- add_menu_items popup scripts1 (host w1) ;;
  Ok (self1, popup_tool_dict1, {| fs := fs w1; host := u2 |}).

Fixpoint popup_buttons_loop (self : CustomShelf) (keys : list str)
  (popup_tool_dict : dict (list str)) (w : world)
  : result (CustomShelf * dict (list str) * world) :=
  match keys with
  | [] => Ok (self, popup_tool_dict, w)
  | tool_path :: rest =>
      '(self1, d1, w1) <- add_popup_button self tool_path popup_tool_dict w ;;
      popup_buttons_loop self1 rest d1 w1
  end.

Definition add_popup_button_from_paths (self : CustomShelf)
  (popup_tool_dict : dict (list str)) (w : world)
  : result (CustomShelf * dict (list str) * world) :=
  popup_buttons_loop self (dict_keys popup_tool_dict) popup_tool_dict w.

Definition add_menu_item (self : CustomShelf)
  (item_name button_name language command : str) (u : ui)
  : result (nat * ui) :=
  popup_menu <- dict_item button_name (popup_menus self) ;;
  menuItem item_name python popup_menu command u.

Definition add_command (self : CustomShelf) (tool_name language : str)
  (icon_path : option str) (command dcc_command : str) (w : world)
  : result world :=
  '(icon, fs1) <-
    match icon_path with
    | None => find_icon self tool_name (fs w)
    | Some i => Ok (i, fs w)
    end ;;
  '(_, u1) <- shelfButton tool_name command (Some language) icon (shelf self)
                dcc_command (host w) ;;
  Ok {| fs := fs1; host := u1 |}.

Definition create_separator (self : CustomShelf) (u : ui) : result ui :=
  '(_, u1) <- separator (shelf self) u ;;
  Ok u1.

(** The loop of [create_shelf] over the categories.  The dictionary handed
    to [add_popup_button_from_paths] is the object stored under
    [self.popup_tool_dict[category]], so what the call removes from it is
    removed from the object's own collection. *)
Fixpoint render_categories (self : CustomShelf) (cats : list str) (w : world)
  : result (CustomShelf * world) :=
  match cats with
  | [] => Ok (self, w)
  | category :: rest =>
      paths <- dict_item category (tool_paths self) ;;
      '(_, w1) <- add_buttons_from_path self paths w ;;
      d <- dict_item category (popup_tool_dict self) ;;
      '(self1, d1, w2) <- add_popup_button_from_paths self d w1 ;;
      let self2 :=
        set_popup_tool_dict self1 (dict_set category d1 (popup_tool_dict self1)) in
      u3 <- create_separator self2 (host w2) ;;
      render_categories self2 rest {| fs := fs w2; host := u3 |}
  end.

(** [create_shelf] and [reload_shelf] call each other; [depth] bounds the
    nesting of calls as the interpreter's recursion limit does. *)
Fixpoint create_shelf (depth : nat) (self : CustomShelf) (w : world)
  : result (CustomShelf * world) :=
  match depth with
  | 0 => Raise RecursionError
  | S depth' =>
      if negb (shelfLayout_exists (shelf_name self) (host w)) then
        '(layout, u1) <- shelfLayout_create (shelf_name self) (host w) ;;
        let self1 := set_shelf self (Some layout) in
        render_categories self1 (categories self1) {| fs := fs w; host := u1 |}
      else
        (* self.reload_shelf() *)
        u1 <- deleteUI (shelf_name self) (host w) ;;
        create_shelf depth' self {| fs := fs w; host := u1 |}
  end.

Definition reload_shelf (depth : nat) (self : CustomShelf) (w : world)
  : result (CustomShelf * world) :=
  u1 <- deleteUI (shelf_name self) (host w) ;;
  create_shelf depth self {| fs := fs w; host := u1 |}.

Definition recursion_limit : nat := 1000.

(* ------------------------------------------------------------------ *)
(** ** Reading the rendered shelf *)

(** The widgets of layout [name] after [w] has been appended to them. *)
Definition with_widget (name : str) (ws : list widget) (w : widget) (u : ui)
  : ui :=
  {| next_id := S (next_id u);
     layouts := dict_set name (ws ++ [w]) (layouts u) |}.

(** The button [add_buttons_from_path] creates for [path] when [icon] is
    the resolved icon and [fs1] the file system after the resolution. *)
Definition flat_button (id : nat) (path icon : str) (fs1 : node) : widget :=
  ShelfButton id
    (replace_chr underscore space (fst (filter_py_mel path)))
    (snd (filter_py_mel path))
    None icon
    (snd (filter_py_mel (find_dcc_command fs1 path))).

Definition widget_label (w : widget) : str :=
  match w with
  | ShelfButton _ l _ _ _ _ => l
  | MenuItem _ l _ _ _ => l
  | Separator _ => []
  end.

Definition widget_command (w : widget) : str :=
  match w with
  | ShelfButton _ _ c _ _ _ => c
  | MenuItem _ _ _ _ c => c
  | Separator _ => []
  end.

Definition widget_dcc (w : widget) : str :=
  match w with
  | ShelfButton _ _ _ _ _ d => d
  | _ => []
  end.

(** The scripts' extensions and the command built for each. *)
Inductive script_ext : str -> (str -> str) -> Prop :=
| ext_py : script_ext (py ".py") python_command
| ext_mel : script_ext (py ".mel") mel_command.


Definition is_menu_item (w : widget) : bool :=
  match w with
  | MenuItem _ _ _ _ _ => true
  | _ => false
  end.

(** The widgets under layout [name], oldest first. *)
Definition widgets_of (name : str) (u : ui) : list widget :=
  match dict_get name (layouts u) with
  | Some ws => ws
  | None => []
  end.

(** The shelf as a user sees it: label and command of every widget of the
    layout, in order (a separator shows as two empty strings). *)
Definition shelf_view (name : str) (u : ui) : list (str * str) :=
  map (fun w => (widget_label w, widget_command w)) (widgets_of name u).

Definition widget_id (w : widget) : nat :=
  match w with
  | ShelfButton id _ _ _ _ _ => id
  | MenuItem id _ _ _ _ => id
  | Separator id => id
  end.

(** A menu item tagged as python; any other widget passes. *)
Definition item_is_python (w : widget) : bool :=
  match w with
  | MenuItem _ _ st _ _ => str_eqb st python
  | _ => true
  end.

(** Every menu item of the host whose identifier is [n] or more is tagged
    as python.  With [n] the host's next identifier before a call, these
    are the items the call creates; with [n = 0], all items. *)
Definition items_python_from (n : nat) (u : ui) : bool :=
  forallb (fun l => forallb (fun w => (widget_id w <? n) || item_is_python w)
                      (snd l))
          (layouts u).

(** Every widget of the host was given an identifier below the next one. *)
Definition ids_below_next (u : ui) : bool :=
  forallb (fun l => forallb (fun w => widget_id w <? next_id u) (snd l))
          (layouts u).

(** The button of a popup folder without a script of its own. *)
Definition bare_button (id : nat) (tool_name icon : str) : widget :=
  ShelfButton id tool_name [] None icon [].

(* ------------------------------------------------------------------ *)
(** ** Scenarios

    Concrete directory trees, all under a root folder [shelf], and an
    object whose shelf layout [S] has just been created. *)

Definition shelf_root : str := py "shelf".
Definition S_name : str := py "S".

(** The tree of the specification's end-to-end scenario: a category
    [rigging] with [snap.py] and a folder [align] holding [align.py] and
    [align_helper.py], and an empty [icons] folder. *)
Definition scenario_fs : node :=
  Dir [(py "shelf",
        Dir [(py "rigging",
              Dir [(py "snap.py", File);
                   (py "align",
                    Dir [(py "align.py", File);
                         (py "align_helper.py", File)])]);
             (py "icons", Dir [])])].

(** A category next to a regular file in the root. *)
Definition stray_file_fs : node :=
  Dir [(py "shelf",
        Dir [(py "rigging", Dir [(py "snap.py", File)]);
             (py "notes.txt", File);
             (py "icons", Dir [])])].

(** A category with a file [happy] and a folder [docs] of two text files. *)
Definition text_files_fs : node :=
  Dir [(py "shelf",
        Dir [(py "rigging",
              Dir [(py "happy", File);
                   (py "docs",
                    Dir [(py "notes.txt", File); (py "todo.txt", File)])]);
             (py "icons", Dir [])])].

(** A folder [align] that lists [auto_align.py] before [align.py]. *)
Definition align_fs : node :=
  Dir [(py "shelf",
        Dir [(py "rigging",
              Dir [(py "align",
                    Dir [(py "auto_align.py", File);
                         (py "align.py", File)])]);
             (py "icons", Dir [])])].

(** A script with a dot in its stem, and its dcc script. *)
Definition dotted_fs : node :=
  Dir [(py "shelf",
        Dir [(py "rigging",
              Dir [(py "my.tool.py", File);
                   (py "my.tool_dcc.py", File);
                   (py "snap.py", File);
                   (py "snap_dcc.py", File)]);
             (py "icons", Dir [])])].

(** [my.tool.py] without a dcc script, next to [my.py] and its dcc script. *)
Definition other_dcc_fs : node :=
  Dir [(py "shelf",
        Dir [(py "rigging",
              Dir [(py "my.tool.py", File);
                   (py "my.py", File);
                   (py "my_dcc.py", File)]);
             (py "icons", Dir [])])].

(** The root without an [icons] folder. *)
Definition no_icons_fs : node :=
  Dir [(py "shelf", Dir [(py "rigging", Dir [(py "snap.py", File)])])].

(** An [icons] folder with one icon, [brush.png]. *)
Definition brush_icon_fs : node :=
  Dir [(py "shelf",
        Dir [(py "rigging", Dir [(py "snap.py", File)]);
             (py "icons", Dir [(py "brush.png", File)])])].

(** An object on [shelf] whose layout exists and is still empty. *)
Definition fresh_self : CustomShelf :=
  {| shelf_directory := shelf_root;
     icon_path := path_join shelf_root icons;
     shelf_name := S_name;
     categories := [];
     popup_tool_dict := [];
     tool_paths := [];
     popup_menus := [];
     shelf := Some S_name |}.

Definition fresh_ui : ui := {| next_id := 0; layouts := [(S_name, [])] |}.

Definition fresh_world (tree : node) : world :=
  {| fs := tree; host := fresh_ui |}.

(** The host of a result, when there is one. *)
Definition host_of {A} (r : result (A * world)) : ui :=
  match r with
  | Ok (_, w) => host w
  | Raise _ => ui_empty
  end.

(** [k] calls of [create_shelf] in a row, each on what the one before
    left. *)
Fixpoint builds (k : nat) (self : CustomShelf) (w : world)
  : result (CustomShelf * world) :=
  match k with
  | 0 => Ok (self, w)
  | S k' =>
      '(self1, w1) <- builds k' self w ;;
      create_shelf recursion_limit self1 w1
  end.

(** The object built on [tree], then [k] calls of [create_shelf] on a host
    without any layout. *)
Definition shelf_after (k : nat) (tree : node) : list (str * str) :=
  shelf_view S_name
    (host_of (self <- init shelf_root S_name tree ;;
              builds k self {| fs := tree; host := ui_empty |})).

(* ------------------------------------------------------------------ *)
(** ** Predicates on lists of paths *)

(** The item passes the popup filter. *)
Definition is_kept (item_path : str) : bool := negb (is_rejected item_path).

(** No item the filter rejects is followed at once by another one. *)
Fixpoint no_adjacent_rejected (l : list str) : bool :=
  match l with
  | [] => true
  | x :: t =>
      match t with
      | [] => true
      | y :: _ => negb (is_rejected x && is_rejected y) && no_adjacent_rejected t
      end
  end.

(** [k in d] *)
Definition dict_has {V} (k : str) (d : dict V) : bool := is_some (dict_get k d).

(** Every category has its list of flat tools and its dictionary of popup
    tools: what [create_shelf] looks up for each category. *)
Definition discovered (self : CustomShelf) : bool :=
  forallb (fun c => dict_has c (tool_paths self) &&
                    dict_has c (popup_tool_dict self))
          (categories self).

(** [s] without its prefix [w], when it starts with [w]. *)
Fixpoint strip_prefix (w s : str) : option str :=
  match w with
  | [] => Some s
  | c :: w' =>
      match s with
      | x :: t => if chr_eqb x c then strip_prefix w' t else None
      | [] => None
      end
  end.

(** [s.endswith(suf)] as a proposition. *)
Definition has_suffix (suf s : str) : Prop := exists pre, s = pre ++ suf.

(** [self'] is [self] but for the popup-menu registry. *)
Definition only_registry_differs (self self' : CustomShelf) : Prop :=
  set_popup_menus self (popup_menus self') = self'.

Definition is_separator (w : widget) : bool :=
  match w with
  | Separator _ => true
  | _ => false
  end.

(** The separators of layout [name]. *)
Definition separators_of (name : str) (u : ui) : list widget :=
  filter is_separator (widgets_of name u).

(* ------------------------------------------------------------------ *)
(** ** Reading what a call has rendered *)

(** [b] is the flat button of path [p] with the icon of some icon
    resolution for [p]'s tool name, [fs1] being the file system that
    resolution left (the one the dcc script is looked up in). *)
Definition rendered_from (self : CustomShelf) (p : str) (b : widget) : Prop :=
  exists icon fs0 fs1,
    find_icon self (fst (filter_py_mel p)) fs0 = Ok (icon, fs1) /\
    b = flat_button (widget_id b) p icon fs1.

(** The same on a file system that the icon resolution leaves as it is. *)
Definition rendered_on (self : CustomShelf) (tree : node) (p : str)
  (b : widget) : Prop :=
  exists icon,
    find_icon self (fst (filter_py_mel p)) tree = Ok (icon, tree) /\
    b = flat_button (widget_id b) p icon tree.

(** The double-click command of [path] on the file system [tree]: the
    command of the dcc script [find_dcc_command] returns there. *)
Definition dcc_command_for (tree : node) (path : str) : str :=
  let stem := path_join (dirname path)
                (split_first "."%char (basename path)) in
  if path_exists tree (stem ++ py "_dcc.mel")
  then mel_command (stem ++ py "_dcc.mel")
  else if path_exists tree (stem ++ py "_dcc.py")
       then python_command (stem ++ py "_dcc.py")
       else [].

(** Every widget of the host, layout by layout. *)
Definition all_widgets (u : ui) : list widget := flat_map snd (layouts u).

(** A menu item of the popup menu [popup]. *)
Definition is_item_of (popup : nat) (w : widget) : bool :=
  match w with
  | MenuItem _ _ _ parent _ => parent =? popup
  | _ => false
  end.

(** Going from [u] to [u'] has put no item into the popup menu [popup]. *)
Definition no_new_item_of (popup : nat) (u u' : ui) : Prop :=
  forall x, In x (all_widgets u') -> is_item_of popup x = true ->
            In x (all_widgets u).

(* ================================================================== *)
(** * Properties *)

(** ** Strings and dictionaries *)

Lemma chr_eqb_eq (a b : ascii) : chr_eqb a b = true <-> a = b.
Proof. apply Ascii.eqb_eq. Qed.

Lemma chr_eqb_refl (a : ascii) : chr_eqb a a = true.
Proof. apply Ascii.eqb_refl. Qed.

Lemma str_eqb_eq (a b : str) : str_eqb a b = true <-> a = b.
Proof.
  revert b; induction a as [|x a IH]; intros [|y b]; simpl;
    try (split; [discriminate | discriminate]); try tauto.
  rewrite andb_true_iff, chr_eqb_eq, IH.
  split; [intros [-> ->]; reflexivity | intros H; inversion H; auto].
Qed.

Lemma str_eqb_refl (a : str) : str_eqb a a = true.
Proof. apply str_eqb_eq; reflexivity. Qed.

Lemma str_eqb_neq (a b : str) : str_eqb a b = false <-> a <> b.
Proof.
  rewrite <- str_eqb_eq. destruct (str_eqb a b); split; congruence.
Qed.

Lemma dict_get_set_same {V} (k : str) (v : V) (d : dict V) :
  dict_get k (dict_set k v d) = Some v.
Proof.
  induction d as [|[k' v'] d IH]; simpl.
  - now rewrite str_eqb_refl.
  - destruct (str_eqb k' k) eqn:E; simpl; now rewrite E.
Qed.

Lemma dict_get_set_other {V} (k k' : str) (v : V) (d : dict V) :
  k <> k' -> dict_get k' (dict_set k v d) = dict_get k' d.
Proof.
  intros Hk. induction d as [|[k0 v0] d IH]; simpl.
  - apply str_eqb_neq in Hk. now rewrite Hk.
  - destruct (str_eqb k0 k) eqn:E; simpl.
    + apply str_eqb_eq in E; subst k0.
      apply str_eqb_neq in Hk. now rewrite Hk.
    + now rewrite IH.
Qed.

Lemma dict_get_del {V} (k : str) (d : dict V) :
  dict_get k (dict_del k d) = None.
Proof.
  induction d as [|[k' v'] d IH]; simpl; auto.
  destruct (str_eqb k' k) eqn:E; simpl; auto. now rewrite E.
Qed.

(** ** The search patterns on names with a script extension *)

Lemma re_search_app (r : regex) (pre s : str) :
  re_search r s = true -> re_search r (pre ++ s) = true.
Proof.
  intros H. induction pre as [|c pre IH]; simpl; auto.
  rewrite IH. apply orb_true_r.
Qed.

(** What [.py$] can match at the start of the input: one character that
    is not a newline, then [py], at the very end or before a last newline. *)
Lemma re_py_match_inv (s rest : str) :
  re_match_rest re_py s = Some rest ->
  exists c, s = c :: py "py" ++ rest /\ (rest = [] \/ rest = [newline]).
Proof.
  unfold re_match_rest, re_py; simpl.
  destruct s as [|c [|p [|y t]]]; try discriminate;
    try (destruct (chr_eqb c newline); discriminate);
    try (destruct (chr_eqb c newline); [discriminate|];
         destruct (chr_eqb p "p"); discriminate).
  destruct (chr_eqb c newline); [discriminate|].
  destruct (chr_eqb p "p") eqn:Ep; [|discriminate].
  destruct (chr_eqb y "y") eqn:Ey; [|discriminate].
  apply chr_eqb_eq in Ep, Ey; subst p y.
  destruct t as [|n [|? ?]]; try discriminate.
  - intros [= <-]. exists c; auto.
  - destruct (chr_eqb n newline) eqn:En; [|discriminate].
    apply chr_eqb_eq in En; subst n.
    intros [= <-]. exists c; auto.
Qed.

Lemma re_mel_match_inv (s rest : str) :
  re_match_rest re_mel s = Some rest ->
  exists c, s = c :: py "mel" ++ rest /\ (rest = [] \/ rest = [newline]).
Proof.
  unfold re_match_rest, re_mel; simpl.
  destruct s as [|c [|m [|e [|l t]]]]; try discriminate;
    try (destruct (chr_eqb c newline); discriminate);
    try (destruct (chr_eqb c newline); [discriminate|];
         destruct (chr_eqb m "m"); discriminate);
    try (destruct (chr_eqb c newline); [discriminate|];
         destruct (chr_eqb m "m"); [|discriminate];
         destruct (chr_eqb e "e"); discriminate).
  destruct (chr_eqb c newline); [discriminate|].
  destruct (chr_eqb m "m") eqn:Em; [|discriminate].
  destruct (chr_eqb e "e") eqn:Ee; [|discriminate].
  destruct (chr_eqb l "l") eqn:El; [|discriminate].
  apply chr_eqb_eq in Em, Ee, El; subst m e l.
  destruct t as [|n [|? ?]]; try discriminate.
  - intros [= <-]. exists c; auto.
  - destruct (chr_eqb n newline) eqn:En; [|discriminate].
    apply chr_eqb_eq in En; subst n.
    intros [= <-]. exists c; auto.
Qed.

(** Inside [x ++ ".py"], the pattern [.py$] matches at the last three
    characters only. *)
Lemma re_py_no_match_inside (c : ascii) (x : str) :
  re_match_rest re_py (c :: x ++ py ".py") = None.
Proof.
  destruct (re_match_rest re_py (c :: x ++ py ".py")) as [rest|] eqn:E; auto.
  apply re_py_match_inv in E. destruct E as [c' [E Hrest]].
  exfalso. injection E as _ E.
  destruct x as [|a [|b x]]; simpl in E.
  - discriminate.
  - destruct Hrest as [-> | ->]; discriminate.
  - injection E as -> -> E.
    destruct Hrest as [-> | ->].
    + destruct x; discriminate.
    + destruct x as [|? [|? ?]]; discriminate.
Qed.

Lemma re_mel_no_match_inside (c : ascii) (x : str) :
  re_match_rest re_mel (c :: x ++ py ".mel") = None.
Proof.
  destruct (re_match_rest re_mel (c :: x ++ py ".mel")) as [rest|] eqn:E; auto.
  apply re_mel_match_inv in E. destruct E as [c' [E Hrest]].
  exfalso. injection E as _ E.
  destruct x as [|a [|b [|d x]]]; simpl in E; try discriminate.
  injection E as -> -> -> E.
  destruct Hrest as [-> | ->].
  - destruct x; discriminate.
  - destruct x as [|? [|? ?]]; discriminate.
Qed.

(** [re.sub('.py$', '', x + '.py') == x] *)
Lemma re_sub_py (x : str) : re_sub re_py [] (x ++ py ".py") = x.
Proof.
  unfold re_sub. induction x as [|c x IH].
  - reflexivity.
  - change ((c :: x) ++ py ".py") with (c :: x ++ py ".py").
    cbn [re_sub_from]. rewrite re_py_no_match_inside. now rewrite IH.
Qed.

Lemma re_sub_mel (x : str) : re_sub re_mel [] (x ++ py ".mel") = x.
Proof.
  unfold re_sub. induction x as [|c x IH].
  - reflexivity.
  - change ((c :: x) ++ py ".mel") with (c :: x ++ py ".mel").
    cbn [re_sub_from]. rewrite re_mel_no_match_inside. now rewrite IH.
Qed.

Lemma re_search_py (x : str) : re_search re_py (x ++ py ".py") = true.
Proof. apply re_search_app. reflexivity. Qed.

Lemma re_search_mel (x : str) : re_search re_mel (x ++ py ".mel") = true.
Proof. apply re_search_app. reflexivity. Qed.

(** A name that ends in [.mel] is not taken for a python script. *)
Lemma re_search_py_mel (x : str) : re_search re_py (x ++ py ".mel") = false.
Proof.
  induction x as [|c x IH].
  - reflexivity.
  - change ((c :: x) ++ py ".mel") with (c :: x ++ py ".mel").
    cbn [re_search]. rewrite IH, orb_false_r.
    destruct (re_match_rest re_py (c :: x ++ py ".mel")) as [rest|] eqn:E; auto.
    apply re_py_match_inv in E. destruct E as [c' [E Hrest]].
    exfalso. injection E as _ E.
    apply (f_equal (@length ascii)) in E. rewrite !length_app in E.
    destruct Hrest as [-> | ->]; simpl in E; lia.
Qed.

Lemma filter_py_mel_py (x : str) :
  filter_py_mel (x ++ py ".py")
  = (re_sub re_py [] (basename (x ++ py ".py")), python_command (x ++ py ".py")).
Proof. unfold filter_py_mel. now rewrite re_search_py. Qed.

Lemma filter_py_mel_mel (x : str) :
  filter_py_mel (x ++ py ".mel")
  = (re_sub re_mel [] (basename (x ++ py ".mel")), mel_command (x ++ py ".mel")).
Proof.
  unfold filter_py_mel. now rewrite re_search_py_mel, re_search_mel.
Qed.

(** ** Paths *)

(** An extension has no slash, so it stays in the base name. *)
Lemma rsplit_slash_app (q e : str) :
  rsplit_slash e = None ->
  rsplit_slash (q ++ e)
  = match rsplit_slash q with
    | Some (h, b) => Some (h, b ++ e)
    | None => None
    end.
Proof.
  intros He. induction q as [|c q IH]; simpl.
  - exact He.
  - rewrite IH. destruct (rsplit_slash q) as [[h b]|]; auto.
    destruct (chr_eqb c slash); auto.
Qed.

Lemma basename_app (q e : str) :
  rsplit_slash e = None -> basename (q ++ e) = basename q ++ e.
Proof.
  intros He. unfold basename. rewrite (rsplit_slash_app q e He).
  destruct (rsplit_slash q) as [[h b]|]; auto.
Qed.

(** ** Rendering one flat button *)

Lemma add_widget_ok (name : str) (ws : list widget) (mk : nat -> widget)
  (u : ui) :
  dict_get name (layouts u) = Some ws ->
  add_widget (Some name) mk u
  = Ok (next_id u, with_widget name ws (mk (next_id u)) u).
Proof. intros H. unfold add_widget. now rewrite H. Qed.

Lemma add_buttons_from_path_one (self : CustomShelf) (path : str) (w : world)
  (icon : str) (fs1 : node) (name : str) (ws : list widget) :
  find_icon self (fst (filter_py_mel path)) (fs w) = Ok (icon, fs1) ->
  shelf self = Some name ->
  dict_get name (layouts (host w)) = Some ws ->
  add_buttons_from_path self [path] w
  = Ok ([next_id (host w)],
        {| fs := fs1;
           host := with_widget name ws
                     (flat_button (next_id (host w)) path icon fs1) (host w) |}).
Proof.
  intros Hicon Hshelf Hlay. simpl. rewrite Hicon. simpl.
  unfold shelfButton. rewrite Hshelf.
  rewrite (add_widget_ok name ws _ (host w) Hlay). reflexivity.
Qed.

Lemma filter_py_mel_ext (x ext : str) (cmd : str -> str) :
  script_ext ext cmd ->
  filter_py_mel (x ++ ext) = (basename x, cmd (x ++ ext)).
Proof.
  intros [|].
  - rewrite filter_py_mel_py, basename_app, re_sub_py; reflexivity.
  - rewrite filter_py_mel_mel, basename_app, re_sub_mel; reflexivity.
Qed.

(** ** The double-click command *)

Lemma filter_py_mel_nil : filter_py_mel [] = ([], []).
Proof. reflexivity. Qed.

Lemma dcc_command_cases (fs1 : node) (path : str) :
  let stem := dcc_script_without_extention path in
  snd (filter_py_mel (find_dcc_command fs1 path))
  = if path_exists fs1 (stem ++ py "_dcc.mel")
    then mel_command (stem ++ py "_dcc.mel")
    else if path_exists fs1 (stem ++ py "_dcc.py")
         then python_command (stem ++ py "_dcc.py")
         else [].
Proof.
  intros stem. unfold find_dcc_command. fold stem.
  destruct (path_exists fs1 (stem ++ py "_dcc.mel")).
  - change (py "_dcc.mel") with (py "_dcc" ++ py ".mel").
    rewrite app_assoc, filter_py_mel_mel. reflexivity.
  - destruct (path_exists fs1 (stem ++ py "_dcc.py")).
    + change (py "_dcc.py") with (py "_dcc" ++ py ".py").
      rewrite app_assoc, filter_py_mel_py. reflexivity.
    + reflexivity.
Qed.

(** A stem without a dot is what [split(".")[0]] returns. *)
Lemma split_first_stem (foo ext : str) :
  forallb (fun c => negb (chr_eqb c "."%char)) foo = true ->
  split_first "."%char (foo ++ "."%char :: ext) = foo.
Proof.
  induction foo as [|c foo IH]; simpl; intros H.
  - reflexivity.
  - apply andb_true_iff in H. destruct H as [Hc H].
    apply negb_true_iff in Hc. rewrite Hc, IH; auto.
Qed.

(** C6, at scripts with a dot in the stem.  Next to [my.tool.py] the file
    [my.tool_dcc.py] exists, yet the button's double-click command is
    empty: the name looked for is cut at the first dot, [my_dcc.py].  And
    where neither [my.tool_dcc.py] nor [my.tool_dcc.mel] exists, the button
    of [my.tool.py] gets the command of [my_dcc.py], the dcc script of
    [my.py].  Label and icon of the same button use the stem [my.tool]. *)
Theorem C6_dotted_stem_dcc_not_found :
  let tool := py "shelf/rigging/my.tool.py" in
  let dcc_of view tree :=
    map view
      (widgets_of S_name
         (host_of (add_buttons_from_path fresh_self [tool] (fresh_world tree)))) in
  basename tool = py "my.tool" ++ py ".py" /\
  fst (filter_py_mel tool) = py "my.tool" /\
  dcc_script_without_extention tool = py "shelf/rigging/my" /\
  path_exists dotted_fs (py "shelf/rigging/my.tool_dcc.py") = true /\
  dcc_of widget_dcc dotted_fs = [[]] /\
  dcc_of widget_label dotted_fs = [py "my.tool"] /\
  path_exists other_dcc_fs (py "shelf/rigging/my.tool_dcc.py") = false /\
  path_exists other_dcc_fs (py "shelf/rigging/my.tool_dcc.mel") = false /\
  dcc_of widget_dcc other_dcc_fs
  = [python_command (py "shelf/rigging/my_dcc.py")].
Proof.
  repeat split; reflexivity.
Qed.

(** ** Menu items are tagged as python *)

Ltac inv_bind H :=
  match type of H with
  | bind ?m _ = Ok _ =>
      let E := fresh "E" in
      destruct m eqn:E; cbn [bind] in H; [|discriminate H]
  end.

Section ItemsPython.

Variable n : nat.











End ItemsPython.

(** On a host whose identifiers are below the next one, no menu item has
    an identifier from the next one on: the condition of the invariant
    holds before a call whatever the tags of the items already there. *)
Lemma items_python_from_next (u : ui) :
  ids_below_next u = true -> items_python_from (next_id u) u = true.
Proof.
  unfold ids_below_next, items_python_from.
  rewrite !forallb_forall. intros H l Hl.
  specialize (H l Hl). rewrite forallb_forall in *.
  intros w Hw. now rewrite (H w Hw).
Qed.



(** ** A popup folder without scripts *)

Lemma button_found (id : nat) (name : str) (ws : list widget) (b : widget)
  (ls : dict (list widget)) :
  is_button id b = true ->
  dict_get name ls = Some ws ->
  existsb (fun l => existsb (is_button id) (snd l))
          (dict_set name (ws ++ [b]) ls) = true.
Proof.
  intros Hb. induction ls as [|[k ws'] ls IH]; simpl; [discriminate|].
  destruct (str_eqb k name); simpl.
  - intros _. rewrite existsb_app. simpl. now rewrite Hb, !orb_true_r.
  - intros H. rewrite IH; auto. apply orb_true_r.
Qed.

Lemma add_popup_button_empty (self : CustomShelf) (tool_path : str)
  (d : dict (list str)) (w : world) (icon : str) (fs1 : node) (name : str)
  (ws : list widget) :
  dict_get tool_path d = Some [] ->
  find_icon self (basename tool_path) (fs w) = Ok (icon, fs1) ->
  shelf self = Some name ->
  dict_get name (layouts (host w)) = Some ws ->
  add_popup_button self tool_path d w
  = Ok (set_popup_menus self
          (dict_set (basename tool_path) (next_id (host w)) (popup_menus self)),
        dict_set tool_path [] d,
        {| fs := fs1;
           host := with_widget name ws
                     (bare_button (next_id (host w)) (basename tool_path) icon)
                     (host w) |}).
Proof.
  intros Hd Hicon Hshelf Hlay.
  unfold add_popup_button, dict_item. rewrite Hd. cbn [bind take_button_script].
  rewrite Hicon. cbn [bind]. unfold shelfButton. rewrite Hshelf.
  rewrite (add_widget_ok name ws _ (host w) Hlay). cbn [bind].
  unfold popupMenuArray. cbn [host with_widget layouts].
  assert (Hb : is_button (next_id (host w))
                 (ShelfButton (next_id (host w)) (basename tool_path) [] None
                    icon []) = true)
    by (simpl; apply Nat.eqb_refl).
  rewrite (button_found _ _ _ _ _ Hb Hlay). reflexivity.
Qed.

(** ** The popup-menu registry *)

Lemma categories_loop_fields (dir : str) (tree : node) (cats : list str) :
  forall self self',
    categories_loop self dir cats tree = Ok self' ->
    popup_menus self' = popup_menus self /\
    categories self' = categories self /\
    shelf self' = shelf self.
Proof.
  induction cats as [|c cats IH]; simpl; intros self self' H.
  - injection H as <-. auto.
  - inv_bind H. inv_bind H.
    unfold get_tools_from_dir in E. inv_bind E. injection E as <-.
    unfold get_popup_tools_from_dir in E0. inv_bind E0. inv_bind E0.
    injection E0 as <-.
    destruct (IH _ _ H) as [H1 [H2 H3]]. simpl in *. auto.
Qed.

Lemma get_all_tools_registry (self self' : CustomShelf) (dir : str)
  (tree : node) :
  get_all_tools self dir tree = Ok self' -> popup_menus self' = popup_menus self.
Proof.
  unfold get_all_tools. intros H.
  destruct (negb (path_exists tree dir)).
  - now injection H as <-.
  - inv_bind H. apply categories_loop_fields in H. simpl in H. tauto.
Qed.

Lemma add_popup_button_registry (self self' : CustomShelf) (tool_path : str)
  (d d' : dict (list str)) (w w' : world) :
  add_popup_button self tool_path d w = Ok (self', d', w') ->
  exists popup,
    popup_menus self'
    = dict_set (basename tool_path) popup (popup_menus self).
Proof.
  unfold add_popup_button. intros H.
  inv_bind H. inv_bind H. destruct a0 as [button_script scripts1].
  inv_bind H. destruct a0 as [new_button w1].
  inv_bind H. inv_bind H. inv_bind H.
  injection H as <- _ _. simpl. eauto.
Qed.

(** C10. The popup-menu registry starts empty, discovery leaves it as it
    is, and a round of popup-button rendering adds to it under the folder's
    name ([basename] of the folder's path); the methods that render flat
    buttons, commands, separators and menu items do not return the object
    at all.  [add_menu_item] on a button name that is not registered
    raises [KeyError] on that name: no menu item is created and nothing is
    returned in its place. *)
Theorem C10_unregistered_button_key_error (self self' : CustomShelf)
  (item_name button_name language command : str) (u : ui)
  (root name : str) (tree : node) (tool_path : str)
  (d d' : dict (list str)) (w w' : world) :
  (dict_get button_name (popup_menus self) = None ->
   add_menu_item self item_name button_name language command u
   = Raise (KeyError button_name)) /\
  (init root name tree = Ok self' -> popup_menus self' = []) /\
  (get_all_tools self root tree = Ok self' ->
   popup_menus self' = popup_menus self) /\
  (add_popup_button self tool_path d w = Ok (self', d', w') ->
   exists popup,
     popup_menus self'
     = dict_set (basename tool_path) popup (popup_menus self)).
Proof.
  repeat split.
  - intros H. unfold add_menu_item, dict_item. now rewrite H.
  - intros H. unfold init in H. now apply get_all_tools_registry in H.
  - apply get_all_tools_registry.
  - apply add_popup_button_registry.
Qed.

Lemma C10_unregistered_button_key_error_witness :
  dict_get (py "align") (popup_menus fresh_self) = None /\
  add_menu_item fresh_self (py "extra") (py "align") (py "mel") (py "print(1)")
    fresh_ui
  = Raise (KeyError (py "align")) /\
  (exists self', init shelf_root S_name scenario_fs = Ok self' /\
                 popup_menus self' = []).
Proof.
  split; [reflexivity|].
  split.
  - exact (proj1 (C10_unregistered_button_key_error fresh_self fresh_self
                    (py "extra") (py "align") (py "mel") (py "print(1)")
                    fresh_ui [] [] scenario_fs [] [] []
                    (fresh_world scenario_fs) (fresh_world scenario_fs))
             eq_refl).
  - destruct (init shelf_root S_name scenario_fs) as [self'|] eqn:E.
    + exists self'. split; [reflexivity|].
      exact (proj1 (proj2 (C10_unregistered_button_key_error fresh_self self'
                             [] [] [] [] fresh_ui shelf_root S_name scenario_fs
                             [] [] [] (fresh_world scenario_fs)
                             (fresh_world scenario_fs))) E).
    + discriminate E.
Defined.

(** ** [list.sort] *)

Lemma str_leb_total (a b : str) : str_leb a b = false -> str_leb b a = true.
Proof.
  revert b. induction a as [|x a IH]; intros [|y b]; simpl; auto;
    try discriminate.
  destruct (chr_ltb x y) eqn:Hxy; [discriminate|].
  destruct (chr_ltb y x) eqn:Hyx; auto.
Qed.

Lemma str_leb_trans (a b c : str) :
  str_leb a b = true -> str_leb b c = true -> str_leb a c = true.
Proof.
  revert b c. induction a as [|x a IH]; intros [|y b] [|z c]; simpl; auto;
    try discriminate.
  unfold chr_ltb.
  destruct (nat_of_ascii x <? nat_of_ascii y) eqn:Hxy;
    destruct (nat_of_ascii y <? nat_of_ascii x) eqn:Hyx;
    destruct (nat_of_ascii y <? nat_of_ascii z) eqn:Hyz;
    destruct (nat_of_ascii z <? nat_of_ascii y) eqn:Hzy;
    destruct (nat_of_ascii x <? nat_of_ascii z) eqn:Hxz;
    destruct (nat_of_ascii z <? nat_of_ascii x) eqn:Hzx;
    repeat match goal with
           | H : (_ <? _) = true |- _ => apply Nat.ltb_lt in H
           | H : (_ <? _) = false |- _ => apply Nat.ltb_ge in H
           end;
    try discriminate; try lia; auto.
  apply IH.
Qed.

Lemma sort_insert_perm (x : str) (l : list str) :
  Permutation (sort_insert x l) (x :: l).
Proof.
  induction l as [|y t IH]; simpl; auto.
  destruct (str_leb x y); auto.
  eapply perm_trans; [apply perm_skip, IH | apply perm_swap].
Qed.

(** [py_sort] returns the items it was given... *)
Lemma py_sort_perm (l : list str) : Permutation (py_sort l) l.
Proof.
  induction l as [|x t IH]; simpl; auto.
  eapply perm_trans; [apply sort_insert_perm | now apply perm_skip].
Qed.

Lemma sort_insert_sorted (x : str) (l : list str) :
  StronglySorted (fun a b => str_leb a b = true) l ->
  StronglySorted (fun a b => str_leb a b = true) (sort_insert x l).
Proof.
  induction 1 as [|y t Hs IH Hall]; simpl.
  - repeat constructor.
  - destruct (str_leb x y) eqn:E.
    + constructor; [constructor; auto|].
      constructor; auto.
      eapply Forall_impl; [|exact Hall].
      intros z Hz. eapply str_leb_trans; eauto.
    + constructor; auto.
      apply str_leb_total in E.
      eapply Permutation_Forall; [symmetry; apply sort_insert_perm|].
      constructor; auto.
Qed.

(** ... in ascending order. *)
Lemma py_sort_sorted (l : list str) :
  StronglySorted (fun a b => str_leb a b = true) (py_sort l).
Proof.
  induction l as [|x t IH]; simpl; [constructor|].
  now apply sort_insert_sorted.
Qed.

(** ** Discovery *)

Lemma get_all_tools_missing_root (self : CustomShelf) (dir : str)
  (tree : node) :
  path_exists tree dir = false -> get_all_tools self dir tree = Ok self.
Proof. intros H. unfold get_all_tools. now rewrite H. Qed.

Lemma get_all_tools_categories (self self' : CustomShelf) (dir : str)
  (tree : node) :
  path_exists tree dir = true ->
  get_all_tools self dir tree = Ok self' ->
  exists names,
    listdir tree dir = Ok names /\
    categories self'
    = if str_in icons (py_sort names) then list_remove icons (py_sort names)
      else py_sort names.
Proof.
  unfold get_all_tools. intros He H. rewrite He in H. simpl in H.
  inv_bind H. exists a. split; auto.
  apply categories_loop_fields in H. simpl in H. tauto.
Qed.

(** C1, at a root that holds a regular file next to its folders:
    [os.listdir] returns the file with the folders, the file is taken for
    a category, and listing it raises.  The categories are not the
    subdirectories of the root, and no object is built. *)
Theorem C1_stray_file_in_root :
  listdir stray_file_fs shelf_root
  = Ok [py "rigging"; py "notes.txt"; py "icons"] /\
  path_isdir stray_file_fs (py "shelf/rigging") = true /\
  path_isdir stray_file_fs (py "shelf/notes.txt") = false /\
  init shelf_root S_name stray_file_fs
  = Raise (NotADirectoryError (py "shelf/notes.txt")).
Proof. repeat split; reflexivity. Qed.

(** The iterator of [remove_loop] needs no more rounds than the list has
    items left to visit. *)
Lemma remove_loop_fuel (fuel : nat) :
  forall (i : nat) (l : list str) (extra : nat),
    length l - i <= fuel ->
    remove_loop (fuel + extra) i l = remove_loop fuel i l.
Proof.
  induction fuel as [|fuel IH]; intros i l extra Hlen.
  - simpl. destruct extra; simpl; auto.
    destruct (nth_error l i) eqn:E; auto.
    assert (i < length l) by (apply nth_error_Some; congruence). lia.
  - simpl. destruct (nth_error l i) as [item|] eqn:E; auto.
    assert (Hi : i < length l) by (apply nth_error_Some; congruence).
    destruct (is_rejected item).
    + apply IH.
      assert (length (list_remove item l) <= length l).
      { clear. induction l as [|y t IHl]; simpl; auto.
        destruct (str_eqb y item); simpl; lia. }
      lia.
    + apply IH. lia.
Qed.

(** C2, at a category that holds a file [happy] and a folder [docs] with
    [notes.txt] and [todo.txt]: [happy] has no script extension and is in
    the flat tool list (the dot of the pattern stands for any character),
    and [todo.txt] stays in the folder's file list (the loop removes
    [notes.txt] from the list it iterates and so steps over [todo.txt]). *)
Theorem C2_filters_at_text_files :
  is_tool_file (py "happy") = true /\
  filter_in_place [py "shelf/rigging/docs/notes.txt";
                   py "shelf/rigging/docs/todo.txt"]
  = [py "shelf/rigging/docs/todo.txt"] /\
  exists self,
    init shelf_root S_name text_files_fs = Ok self /\
    categories self = [py "rigging"] /\
    tool_paths self = [(py "rigging", [py "shelf/rigging/happy"])] /\
    popup_tool_dict self
    = [(py "rigging",
        [(py "shelf/rigging/docs", [py "shelf/rigging/docs/todo.txt"])])].
Proof.
  split; [reflexivity|]. split; [reflexivity|].
  eexists. split; [reflexivity|]. repeat split; reflexivity.
Qed.

(** ** Popup buttons *)

(** C3, at a folder [align] whose list is [auto_align.py], [align.py]:
    the pattern built from the folder's name is searched for, not matched
    from the start of the file name, so [auto_align.py] is found first and
    becomes the button; its tool name is not the folder's name, and
    [align.py] is left as a menu item. *)
Theorem C3_button_script_by_suffix :
  let folder := py "shelf/rigging/align" in
  let auto_align := py "shelf/rigging/align/auto_align.py" in
  let align := py "shelf/rigging/align/align.py" in
  (exists self,
      init shelf_root S_name align_fs = Ok self /\
      popup_tool_dict self = [(py "rigging", [(folder, [auto_align; align])])]) /\
  take_button_script (basename folder) [auto_align; align]
  = Ok (Some auto_align, [align]) /\
  fst (filter_py_mel auto_align) = py "auto_align" /\
  basename folder = py "align" /\
  map (fun w => (is_menu_item w, widget_label w, widget_command w))
    (widgets_of S_name
       (host_of (r <- add_popup_button_from_paths fresh_self
                        [(folder, [auto_align; align])] (fresh_world align_fs) ;;
                 Ok (tt, snd r))))
  = [(false, py "auto align", python_command auto_align);
     (true, py "align", python_command align)].
Proof.
  intros folder auto_align align.
  split; [eexists; split; reflexivity|].
  repeat split; reflexivity.
Qed.

(** In the folder of the specification's example the button is [bar.py]
    and [baz.py] is the one menu item, in both listing orders. *)
Lemma popup_bar_baz :
  let folder := py "shelf/rigging/bar" in
  let bar := py "shelf/rigging/bar/bar.py" in
  let baz := py "shelf/rigging/bar/baz.py" in
  let view files :=
    map (fun w => (is_menu_item w, widget_label w, widget_command w))
      (widgets_of S_name
         (host_of (r <- add_popup_button_from_paths fresh_self
                          [(folder, files)] (fresh_world scenario_fs) ;;
                   Ok (tt, snd r)))) in
  view [bar; baz] = [(false, py "bar", python_command bar);
                     (true, py "baz", python_command baz)] /\
  view [baz; bar] = [(false, py "bar", python_command bar);
                     (true, py "baz", python_command baz)].
Proof. split; reflexivity. Qed.

(** ** Icons *)

Lemma find_icon_no_match (self : CustomShelf) (tool_name : str) (tree : node)
  (names : list str) :
  path_exists tree (icon_path self) = true ->
  listdir tree (icon_path self) = Ok names ->
  pick_icon tool_name names = Ok default_icon ->
  find_icon self tool_name tree
  = Ok (path_join (icon_path self) default_icon, tree).
Proof.
  intros He Hl Hp. unfold find_icon. rewrite He, Hl. simpl. now rewrite Hp.
Qed.

Lemma find_icon_missing_dir (self : CustomShelf) (tool_name : str)
  (tree tree' : node) :
  path_exists tree (icon_path self) = false ->
  makedirs tree (icon_path self) = Ok tree' ->
  find_icon self tool_name tree = Ok (default_icon, tree').
Proof.
  intros He Hm. unfold find_icon. rewrite He, Hm. reflexivity.
Qed.

Lemma find_icon_in_dir (self : CustomShelf) (tool_name : str) (tree : node)
  (r : regex) :
  path_isdir tree (icon_path self) = true ->
  re_of_name tool_name = Some r ->
  exists icon, find_icon self tool_name tree = Ok (icon, tree).
Proof.
  unfold path_isdir, find_icon, path_exists, listdir. intros Hd Hr.
  destruct (resolve tree (icon_path self)) as [[|es]|]; try discriminate.
  simpl. unfold pick_icon, re_named_icon. rewrite Hr.
  destruct (map fst es); simpl; eauto.
Qed.

(** Icon resolution succeeds whenever the icon folder is a directory and
    the tool's name has no regex metacharacter but the dot. *)
Lemma find_icon_total (self : CustomShelf) (tool_name : str) (tree : node)
  (r : regex) :
  path_isdir tree (icon_path self) = true ->
  re_of_name tool_name = Some r ->
  exists icon, find_icon self tool_name tree = Ok (icon, tree).
Proof. exact (find_icon_in_dir self tool_name tree r). Qed.

(** C7, at a tool [snap] with no icon of its name.  With an [icons]
    folder, empty or holding another icon, the icon returned is the path
    of a file [commandButton.png] inside that folder, not the default
    icon's name [commandButton.png]; the name itself is what the branch
    for a missing folder returns, after creating the folder. *)
Theorem C7_default_icon_in_existing_dir :
  default_icon = py "commandButton.png" /\
  listdir scenario_fs (icon_path fresh_self) = Ok [] /\
  find_icon fresh_self (py "snap") scenario_fs
  = Ok (py "shelf/icons/commandButton.png", scenario_fs) /\
  listdir brush_icon_fs (icon_path fresh_self) = Ok [py "brush.png"] /\
  find_icon fresh_self (py "snap") brush_icon_fs
  = Ok (py "shelf/icons/commandButton.png", brush_icon_fs) /\
  find_icon fresh_self (py "brush") brush_icon_fs
  = Ok (py "shelf/icons/brush.png", brush_icon_fs) /\
  path_exists no_icons_fs (icon_path fresh_self) = false /\
  exists tree',
    find_icon fresh_self (py "snap") no_icons_fs
    = Ok (py "commandButton.png", tree') /\
    listdir tree' (icon_path fresh_self) = Ok [].
Proof.
  repeat (split; [reflexivity|]).
  eexists. split; reflexivity.
Qed.

(** ** Building and rebuilding the shelf *)

Lemma deleteUI_gone (name : str) (u u' : ui) :
  deleteUI name u = Ok u' -> shelfLayout_exists name u' = false.
Proof.
  unfold deleteUI. destruct (shelfLayout_exists name u); [|discriminate].
  intros [= <-]. unfold shelfLayout_exists. simpl. now rewrite dict_get_del.
Qed.

Lemma create_shelf_rebuild_steps (k : nat) (self : CustomShelf) (w : world) :
  shelfLayout_exists (shelf_name self) (host w) = true ->
  let cleared :=
    {| fs := fs w;
       host := {| next_id := next_id (host w);
                  layouts := dict_del (shelf_name self) (layouts (host w)) |} |} in
  shelfLayout_exists (shelf_name self) (host cleared) = false /\
  create_shelf (S (S k)) self w = reload_shelf (S k) self w /\
  create_shelf (S (S k)) self w = create_shelf 1 self cleared.
Proof.
  intros He cleared.
  assert (Hgone : shelfLayout_exists (shelf_name self) (host cleared) = false).
  { unfold shelfLayout_exists, cleared. simpl. now rewrite dict_get_del. }
  split; [exact Hgone|]. split.
  - unfold reload_shelf. cbn [create_shelf]. rewrite He. reflexivity.
  - cbn [create_shelf]. rewrite He. cbn [negb].
    unfold deleteUI. rewrite He. cbn [bind]. fold cleared.
    rewrite Hgone. reflexivity.
Qed.

(** On a shelf that exists, [create_shelf] is [reload_shelf]: the layout
    is deleted with all its widgets and the shelf is built anew by the
    branch for a shelf that does not exist; one nested call is all it
    takes, whatever the recursion limit. *)
Lemma create_shelf_rebuild (k : nat) (self : CustomShelf) (w : world) :
  shelfLayout_exists (shelf_name self) (host w) = true ->
  let cleared :=
    {| fs := fs w;
       host := {| next_id := next_id (host w);
                  layouts := dict_del (shelf_name self) (layouts (host w)) |} |} in
  shelfLayout_exists (shelf_name self) (host cleared) = false /\
  create_shelf (S (S k)) self w = reload_shelf (S k) self w /\
  create_shelf (S (S k)) self w = create_shelf 1 self cleared.
Proof. exact (create_shelf_rebuild_steps k self w). Qed.

(** C4, at the folder [align] that lists [auto_align.py] before
    [align.py], and at the specification's own scenario.  Each build
    takes the popup button's script out of the list the next build reads,
    so the builds differ: on [align_fs] the first shelf has the button
    [auto align] with a menu item [align], the first rebuild a button
    [align] running [align.py] and no item, the second rebuild a button
    [align] without a command; on the scenario the button [align] has
    lost its command after the first rebuild. *)
Theorem C4_rebuild_changes_the_shelf :
  let auto_align := py "shelf/rigging/align/auto_align.py" in
  let align := py "shelf/rigging/align/align.py" in
  let helper := py "shelf/rigging/align/align_helper.py" in
  let snap := py "shelf/rigging/snap.py" in
  shelf_after 1 align_fs
  = [(py "auto align", python_command auto_align);
     (py "align", python_command align); ([], [])] /\
  shelf_after 2 align_fs = [(py "align", python_command align); ([], [])] /\
  shelf_after 3 align_fs = [(py "align", []); ([], [])] /\
  shelf_after 1 scenario_fs
  = [(py "snap", python_command snap); (py "align", python_command align);
     (py "align helper", python_command helper); ([], [])] /\
  shelf_after 2 scenario_fs
  = [(py "snap", python_command snap); (py "align", []);
     (py "align helper", python_command helper); ([], [])] /\
  shelf_after 2 align_fs <> shelf_after 3 align_fs /\
  shelf_after 1 scenario_fs <> shelf_after 2 scenario_fs.
Proof.
  intros auto_align align helper snap.
  repeat (split; [vm_compute; reflexivity|]).
  split; vm_compute; discriminate.
Qed.

(* ------------------------------------------------------------------ *)
(** ** The popup filter's loop *)

Lemma list_remove_rejected_kept (x : str) (l : list str) :
  is_rejected x = true ->
  filter is_kept (list_remove x l) = filter is_kept l.
Proof.
  intros Hx. induction l as [|y t IH]; simpl; auto.
  destruct (str_eqb y x) eqn:E.
  - apply str_eqb_eq in E; subst y. unfold is_kept at 2. now rewrite Hx.
  - simpl. now rewrite IH.
Qed.

Lemma list_remove_incl (x : str) (l : list str) (z : str) :
  In z (list_remove x l) -> In z l.
Proof.
  induction l as [|y t IH]; simpl; auto.
  destruct (str_eqb y x); simpl; intuition.
Qed.

Lemma list_remove_length (x : str) (l : list str) :
  length (list_remove x l) <= length l.
Proof.
  induction l as [|y t IH]; simpl; auto.
  destruct (str_eqb y x); simpl; lia.
Qed.

Lemma remove_loop_kept (fuel : nat) :
  forall (i : nat) (l : list str),
    filter is_kept (remove_loop fuel i l) = filter is_kept l /\
    (forall z, In z (remove_loop fuel i l) -> In z l) /\
    length (remove_loop fuel i l) <= length l.
Proof.
  induction fuel as [|fuel IH]; intros i l; simpl; auto.
  destruct (nth_error l i) as [item|]; auto.
  destruct (is_rejected item) eqn:E; auto.
  destruct (IH (S i) (list_remove item l)) as [H1 [H2 H3]].
  split; [|split].
  - rewrite H1. now apply list_remove_rejected_kept.
  - intros z Hz. eapply list_remove_incl; eauto.
  - pose proof (list_remove_length item l). lia.
Qed.

(** The in-place filter never loses a script: the items that pass the
    test are all in the result, in their order, whatever else stays; and
    it invents nothing, every item of the result is one of the list. *)
Theorem filter_in_place_keeps_scripts (l : list str) :
  filter is_kept (filter_in_place l) = filter is_kept l /\
  (forall z, In z (filter_in_place l) -> In z l) /\
  length (filter_in_place l) <= length l.
Proof. apply remove_loop_kept. Qed.

Lemma list_remove_after_kept (x : str) (pre t : list str) :
  is_rejected x = true ->
  forallb is_kept pre = true ->
  list_remove x (pre ++ x :: t) = pre ++ t.
Proof.
  intros Hx. induction pre as [|y pre IH]; simpl; intros Hpre.
  - now rewrite str_eqb_refl.
  - apply andb_true_iff in Hpre. destruct Hpre as [Hy Hpre].
    destruct (str_eqb y x) eqn:E.
    + apply str_eqb_eq in E; subst y. unfold is_kept in Hy.
      rewrite Hx in Hy. discriminate.
    + now rewrite IH.
Qed.

Lemma nth_error_middle (pre : list str) (x : str) (t : list str) :
  nth_error (pre ++ x :: t) (length pre) = Some x.
Proof.
  rewrite nth_error_app2 by lia. now rewrite Nat.sub_diag.
Qed.

Lemma remove_loop_exact (fuel : nat) :
  forall (pre rest : list str),
    length rest <= fuel ->
    forallb is_kept pre = true ->
    no_adjacent_rejected rest = true ->
    remove_loop fuel (length pre) (pre ++ rest) = pre ++ filter is_kept rest.
Proof.
  induction fuel as [|fuel IH]; intros pre rest Hlen Hpre Hadj.
  - destruct rest; [reflexivity | simpl in Hlen; lia].
  - destruct rest as [|x rest].
    + simpl. rewrite app_nil_r.
      destruct (nth_error pre (length pre)) eqn:E; auto.
      assert (length pre < length pre) by (apply nth_error_Some; congruence).
      lia.
    + cbn [remove_loop]. rewrite nth_error_middle.
      assert (Hstep : forall y, is_kept y = true ->
                S (length pre) = length (pre ++ [y])).
      { intros y _. rewrite length_app. simpl. lia. }
      destruct (is_rejected x) eqn:Hx.
      * rewrite list_remove_after_kept by auto.
        cbn [filter]. unfold is_kept at 1. rewrite Hx. cbn [negb].
        destruct rest as [|y rest].
        { cbn [filter]. rewrite !app_nil_r.
          destruct fuel; cbn [remove_loop]; [reflexivity|].
          destruct (nth_error pre (S (length pre))) eqn:E; [|reflexivity].
          assert (S (length pre) < length pre)
            by (apply nth_error_Some; congruence).
          lia. }
        cbn [no_adjacent_rejected] in Hadj. rewrite Hx in Hadj.
        apply andb_true_iff in Hadj. destruct Hadj as [Hy Hadj].
        assert (Hky : is_kept y = true).
        { unfold is_kept. destruct (is_rejected y); auto. }
        rewrite (Hstep y Hky).
        replace (pre ++ y :: rest) with ((pre ++ [y]) ++ rest)
          by (rewrite <- app_assoc; reflexivity).
        rewrite IH.
        -- cbn [filter]. rewrite Hky. rewrite <- app_assoc. reflexivity.
        -- simpl in Hlen. lia.
        -- rewrite forallb_app, Hpre. simpl. now rewrite Hky.
        -- destruct rest; auto. cbn [no_adjacent_rejected] in Hadj.
           apply andb_true_iff in Hadj. tauto.
      * assert (Hkx : is_kept x = true) by (unfold is_kept; now rewrite Hx).
        rewrite (Hstep x Hkx).
        replace (pre ++ x :: rest) with ((pre ++ [x]) ++ rest)
          by (rewrite <- app_assoc; reflexivity).
        rewrite IH.
        -- cbn [filter]. rewrite Hkx. rewrite <- app_assoc. reflexivity.
        -- simpl in Hlen. lia.
        -- rewrite forallb_app, Hpre. simpl. now rewrite Hkx.
        -- destruct rest; auto. cbn [no_adjacent_rejected] in Hadj.
           apply andb_true_iff in Hadj. tauto.
Qed.

(** When no two items to remove stand next to each other, the in-place
    filter removes exactly the items that fail the test. *)
Theorem filter_in_place_exact (l : list str) :
  no_adjacent_rejected l = true ->
  filter_in_place l = filter is_kept l.
Proof.
  intros H. unfold filter_in_place.
  apply (remove_loop_exact (length l) [] l); auto.
Qed.

Lemma filter_in_place_exact_witness :
  let l := [py "d/a.py"; py "d/notes.txt"; py "d/b.mel"; py "d/b_dcc.mel";
            py "d/c.py"] in
  no_adjacent_rejected l = true /\
  filter_in_place l = [py "d/a.py"; py "d/b.mel"; py "d/c.py"].
Proof.
  intros l. split; [reflexivity|].
  rewrite (filter_in_place_exact l eq_refl). reflexivity.
Defined.

(* ------------------------------------------------------------------ *)
(** ** The categories discovery leaves *)

Lemma str_in_In (x : str) (l : list str) : str_in x l = true <-> In x l.
Proof.
  induction l as [|y t IH]; simpl.
  - split; [discriminate | tauto].
  - rewrite orb_true_iff, str_eqb_eq, IH. intuition.
Qed.

Lemma list_remove_sorted (x : str) (l : list str) :
  StronglySorted (fun a b => str_leb a b = true) l ->
  StronglySorted (fun a b => str_leb a b = true) (list_remove x l).
Proof.
  induction 1 as [|y t Hs IH Hall]; simpl; [constructor|].
  destruct (str_eqb y x); auto.
  constructor; auto.
  rewrite Forall_forall in *. intros z Hz. apply Hall.
  eapply list_remove_incl; eauto.
Qed.

Lemma list_remove_In (x z : str) (l : list str) :
  NoDup l -> (In z (list_remove x l) <-> In z l /\ z <> x).
Proof.
  induction 1 as [|y t Hy Hnd IH]; simpl; [tauto|].
  destruct (str_eqb y x) eqn:E.
  - apply str_eqb_eq in E; subst y. split.
    + intros Hz. split; auto. intros ->. contradiction.
    + intros [[->|Hz] Hne]; [congruence | auto].
  - apply str_eqb_neq in E. simpl. rewrite IH. split.
    + intros [->|[Hz Hne]]; auto.
    + intros [[->|Hz] Hne]; auto.
Qed.

Lemma list_remove_NoDup (x : str) (l : list str) :
  NoDup l -> NoDup (list_remove x l).
Proof.
  induction 1 as [|y t Hy Hnd IH]; simpl; [constructor|].
  destruct (str_eqb y x); auto.
  constructor; auto. intros Hin. apply Hy. eapply list_remove_incl; eauto.
Qed.

(** The categories of a successful discovery, for a root whose listing is
    [names] (no name twice, as in a directory): they are in ascending
    order, no category comes twice, and a name is a category exactly when
    the root lists it and it is not [icons].  Files of the root count as
    names: discovery succeeds only if each of them can be listed. *)
Theorem discovered_categories (self self' : CustomShelf) (dir : str)
  (tree : node) (names : list str) :
  listdir tree dir = Ok names ->
  NoDup names ->
  get_all_tools self dir tree = Ok self' ->
  StronglySorted (fun a b => str_leb a b = true) (categories self') /\
  NoDup (categories self') /\
  (forall c, In c (categories self') <-> In c names /\ c <> icons).
Proof.
  intros Hl Hnd H.
  assert (He : path_exists tree dir = true).
  { unfold path_exists. unfold listdir in Hl.
    destruct (resolve tree dir) as [[|es]|]; try discriminate; reflexivity. }
  destruct (get_all_tools_categories self self' dir tree He H)
    as [names' [Hl' Hc]].
  rewrite Hl in Hl'. injection Hl' as <-.
  pose proof (py_sort_sorted names) as Hs.
  pose proof (py_sort_perm names) as Hp.
  assert (Hnd' : NoDup (py_sort names))
    by (eapply Permutation_NoDup; [symmetry; exact Hp | exact Hnd]).
  assert (Hin : forall c, In c (py_sort names) <-> In c names).
  { intros c. split; apply Permutation_in; [exact Hp | symmetry; exact Hp]. }
  rewrite Hc. destruct (str_in icons (py_sort names)) eqn:E.
  - split; [now apply list_remove_sorted|].
    split; [now apply list_remove_NoDup|].
    intros c. rewrite list_remove_In by exact Hnd'. now rewrite Hin.
  - split; [exact Hs|]. split; [exact Hnd'|].
    intros c. rewrite Hin. split; [|tauto].
    intros Hc'. split; auto. intros ->.
    apply Hin, str_in_In in Hc'. congruence.
Qed.

Lemma discovered_categories_witness :
  listdir scenario_fs shelf_root = Ok [py "rigging"; py "icons"] /\
  NoDup [py "rigging"; py "icons"] /\
  exists self',
    init shelf_root S_name scenario_fs = Ok self' /\
    categories self' = [py "rigging"] /\
    (forall c, In c (categories self') <->
               In c [py "rigging"; py "icons"] /\ c <> icons).
Proof.
  split; [reflexivity|].
  assert (Hnd : NoDup [py "rigging"; py "icons"]).
  { repeat constructor; simpl; intuition discriminate. }
  split; [exact Hnd|].
  destruct (init shelf_root S_name scenario_fs) as [self'|] eqn:E;
    [|discriminate E].
  exists self'. split; [reflexivity|].
  split; [injection E as <-; reflexivity|].
  exact (proj2 (proj2 (discovered_categories _ self' shelf_root scenario_fs
                         [py "rigging"; py "icons"] eq_refl Hnd E))).
Defined.

Lemma dict_has_set {V} (c k : str) (v : V) (d : dict V) :
  dict_has c (dict_set k v d) = str_eqb k c || dict_has c d.
Proof.
  unfold dict_has. induction d as [|[k' v'] d IH]; simpl.
  - destruct (str_eqb k c); reflexivity.
  - destruct (str_eqb k' k) eqn:E; simpl.
    + apply str_eqb_eq in E; subst k'.
      destruct (str_eqb k c); reflexivity.
    + destruct (str_eqb k' c) eqn:E'; simpl.
      * now rewrite orb_true_r.
      * exact IH.
Qed.

Lemma categories_loop_has (dir : str) (tree : node) (cats : list str) :
  forall self self',
    categories_loop self dir cats tree = Ok self' ->
    forall c,
      In c cats \/
      dict_has c (tool_paths self) && dict_has c (popup_tool_dict self) = true ->
      dict_has c (tool_paths self') && dict_has c (popup_tool_dict self') = true.
Proof.
  induction cats as [|cat cats IH]; simpl; intros self self' H c Hc.
  - injection H as <-. tauto.
  - inv_bind H. inv_bind H.
    unfold get_tools_from_dir in E. inv_bind E. injection E as <-.
    unfold get_popup_tools_from_dir in E0. inv_bind E0. inv_bind E0.
    injection E0 as <-.
    apply (IH _ _ H). simpl. rewrite !dict_has_set.
    destruct Hc as [[->|Hc]|Hc]; auto.
    + right. now rewrite str_eqb_refl.
    + right. apply andb_true_iff in Hc. destruct Hc as [-> ->].
      now rewrite !orb_true_r.
Qed.

(** A successful construction leaves an object on which every category
    has an entry in [tool_paths] and one in [popup_tool_dict]: the two
    lookups [create_shelf] makes per category find their key. *)
Theorem init_discovered (root name : str) (tree : node) (self : CustomShelf) :
  init root name tree = Ok self -> discovered self = true.
Proof.
  unfold init, get_all_tools. intros H.
  destruct (negb (path_exists tree root)).
  - injection H as <-. reflexivity.
  - inv_bind H.
    pose proof (categories_loop_fields _ _ _ _ _ H) as [_ [Hc _]].
    unfold discovered. rewrite Hc. simpl.
    apply forallb_forall. intros c Hin.
    apply (categories_loop_has _ _ _ _ _ H). left. exact Hin.
Qed.

Lemma init_discovered_witness :
  exists self,
    init shelf_root S_name scenario_fs = Ok self /\ discovered self = true.
Proof.
  destruct (init shelf_root S_name scenario_fs) as [self|] eqn:E;
    [|discriminate E].
  exists self. split; [reflexivity|].
  exact (init_discovered shelf_root S_name scenario_fs self E).
Defined.

(* ------------------------------------------------------------------ *)
(** ** Which names are flat tools *)

Lemma strip_prefix_Some (w s rest : str) :
  strip_prefix w s = Some rest <-> s = w ++ rest.
Proof.
  revert s. induction w as [|c w IH]; intros s; simpl.
  - split; [intros [= ->]; reflexivity | intros ->; reflexivity].
  - destruct s as [|x t]; [split; discriminate|].
    destruct (chr_eqb x c) eqn:E.
    + apply chr_eqb_eq in E; subst x. rewrite IH.
      split; [intros ->; reflexivity | intros [= ->]; reflexivity].
    + split; [discriminate|]. intros [= -> _].
      rewrite chr_eqb_refl in E. discriminate.
Qed.

Lemma re_run_lit {A} (w s : str) (k : str -> option A) :
  re_run (lit w) s k
  = match strip_prefix w s with
    | Some rest => k rest
    | None => None
    end.
Proof.
  revert s. induction w as [|c w IH]; intros s; simpl; auto.
  destruct s as [|x t]; auto.
  destruct (chr_eqb x c); auto.
Qed.

(** A wildcard, a word and the end: what the tail of each pattern of the
    source matches. *)
Lemma re_run_ext (e s r : str) :
  re_run Dot s
    (fun s2 => re_run (lit e) s2
                 (fun s3 => re_run Eol s3 (fun rest => Some rest))) = Some r ->
  exists c, s = c :: e ++ r /\ c <> newline /\ (r = [] \/ r = [newline]).
Proof.
  cbn [re_run]. destruct s as [|c s2]; [discriminate|].
  destruct (chr_eqb c newline) eqn:Ec; [discriminate|].
  rewrite re_run_lit.
  destruct (strip_prefix e s2) as [s3|] eqn:E; [|discriminate].
  apply strip_prefix_Some in E. subst s2.
  assert (Hc : c <> newline).
  { intros ->. unfold chr_eqb in Ec. rewrite Ascii.eqb_refl in Ec.
    discriminate. }
  destruct s3 as [|n [|? ?]]; try discriminate.
  - intros [= <-]. exists c. auto.
  - destruct (chr_eqb n newline) eqn:En; [|discriminate].
    apply chr_eqb_eq in En; subst n.
    intros [= <-]. exists c. auto.
Qed.

Lemma re_dcc_match_inv (s r : str) :
  re_match_rest re_dcc s = Some r ->
  exists c e,
    s = py "_dcc" ++ c :: e ++ r /\
    (e = py "py" \/ e = py "mel") /\ (r = [] \/ r = [newline]).
Proof.
  unfold re_match_rest, re_dcc. cbn [re_run]. rewrite !re_run_lit.
  destruct (strip_prefix (py "_dcc") s) as [s1|] eqn:E.
  - apply strip_prefix_Some in E. subst s. unfold orelse.
    match goal with
    | |- match ?a with _ => _ end = _ -> _ => destruct a as [r1|] eqn:E1
    end.
    + intros [= <-]. apply re_run_ext in E1.
      destruct E1 as [c [-> [_ Hr]]]. exists c, (py "py"). auto.
    + intros E2. apply re_run_ext in E2.
      destruct E2 as [c [-> [_ Hr]]]. exists c, (py "mel"). auto.
  - discriminate.
Qed.

Lemma re_search_inv (r : regex) (s : str) :
  re_search r s = true ->
  exists pre rest r', s = pre ++ rest /\ re_match_rest r rest = Some r'.
Proof.
  induction s as [|c s IH]; simpl; intros H.
  - rewrite orb_false_r in H.
    destruct (re_match_rest r []) as [r'|] eqn:E; [|discriminate].
    exists [], [], r'. auto.
  - apply orb_true_iff in H. destruct H as [H|H].
    + destruct (re_match_rest r (c :: s)) as [r'|] eqn:E; [|discriminate].
      exists [], (c :: s), r'. auto.
    + destruct (IH H) as [pre [rest [r' [-> E]]]].
      exists (c :: pre), rest, r'. auto.
Qed.

Lemma app_inv_same_length (a b c d : str) :
  a ++ b = c ++ d -> length b = length d -> a = c /\ b = d.
Proof.
  revert c. induction a as [|x a IH]; intros [|y c] H Hl; simpl in H.
  - auto.
  - apply (f_equal (@length ascii)) in H. simpl in H.
    rewrite length_app in H. lia.
  - apply (f_equal (@length ascii)) in H. simpl in H.
    rewrite length_app in H. lia.
  - injection H as -> H. destruct (IH c H Hl) as [-> ->]. auto.
Qed.

Lemma re_search_dcc_ext (x ext : str) :
  ext = py ".py" \/ ext = py ".mel" ->
  (re_search re_dcc (x ++ ext) = true <-> has_suffix (py "_dcc") x).
Proof.
  intros Hext. split.
  - intros H. apply re_search_inv in H.
    destruct H as [pre [rest [r' [Hs Hm]]]].
    apply re_dcc_match_inv in Hm.
    destruct Hm as [c [e [-> [He Hr]]]].
    exists pre.
    assert (Hs' : x ++ ext = (pre ++ py "_dcc") ++ c :: e ++ r')
      by (rewrite Hs, <- app_assoc; reflexivity).
    apply (f_equal (@rev ascii)) in Hs'.
    rewrite !rev_app_distr in Hs'.
    destruct Hext as [-> | ->], He as [-> | ->], Hr as [-> | ->];
      cbn in Hs'; try discriminate Hs';
      injection Hs' as _ Hs';
      apply (f_equal (@rev ascii)) in Hs';
      rewrite rev_involutive in Hs'; cbn in Hs';
      rewrite rev_involutive, <- !app_assoc in Hs'; exact Hs'.
  - intros [pre ->]. rewrite <- app_assoc. apply re_search_app.
    destruct Hext as [-> | ->]; reflexivity.
Qed.

Lemma re_search_script_ext (x ext : str) :
  ext = py ".py" \/ ext = py ".mel" -> re_search re_script (x ++ ext) = true.
Proof.
  intros [-> | ->]; apply re_search_app; reflexivity.
Qed.

(** A name [x.py] or [x.mel] is a flat tool exactly when [x] does not end
    in [_dcc]: every script of a category gets its button, and a dcc
    script never gets one of its own. *)
Theorem is_tool_file_ext (x ext : str) :
  ext = py ".py" \/ ext = py ".mel" ->
  (is_tool_file (x ++ ext) = true <-> ~ has_suffix (py "_dcc") x) /\
  (is_tool_file (x ++ ext) = false <-> has_suffix (py "_dcc") x).
Proof.
  intros Hext. unfold is_tool_file.
  rewrite (re_search_script_ext x ext Hext). cbn [andb].
  pose proof (re_search_dcc_ext x ext Hext) as H.
  destruct (re_search re_dcc (x ++ ext)); cbn [negb]; intuition congruence.
Qed.

Lemma is_tool_file_ext_witness :
  (is_tool_file (py "my_tool" ++ py ".py") = true <->
   ~ has_suffix (py "_dcc") (py "my_tool")) /\
  is_tool_file (py "my_tool_dcc" ++ py ".mel") = false.
Proof.
  split.
  - exact (proj1 (is_tool_file_ext (py "my_tool") (py ".py")
                    (or_introl eq_refl))).
  - apply (proj2 (is_tool_file_ext (py "my_tool_dcc") (py ".mel")
                    (or_intror eq_refl))).
    exists (py "my_tool"). reflexivity.
Defined.


(* ------------------------------------------------------------------ *)
(** ** Names spliced into a pattern *)

(** The pattern of a name matches the name itself. *)
Lemma re_run_name {A} (t : str) :
  forall (r : regex) (rest : str) (k : str -> option A),
    re_of_name t = Some r -> re_run r (t ++ rest) k = k rest.
Proof.
  induction t as [|c t IH]; simpl; intros r rest k H.
  - injection H as <-. reflexivity.
  - destruct (is_meta c); [discriminate|].
    destruct (re_of_name t) as [r'|]; [|discriminate].
    injection H as <-. cbn [re_run].
    destruct (chr_eqb c "."%char) eqn:E; cbn [re_run].
    + apply chr_eqb_eq in E; subst c. cbn. now apply IH.
    + rewrite chr_eqb_refl. now apply IH.
Qed.

Lemma re_named_icon_own (t ext : str) (r : regex) (pre : str) :
  re_named_icon t = Ok r ->
  ext = py ".png" \/ ext = py ".jpg" \/ ext = py "jpeg" \/ ext = py ".svg" ->
  re_search r (pre ++ t ++ ext) = true.
Proof.
  unfold re_named_icon. intros H Hext.
  destruct (re_of_name t) as [r0|] eqn:E; [|discriminate].
  injection H as <-. apply re_search_app.
  destruct (t ++ ext) eqn:Et; cbn [re_search]; rewrite <- Et;
    unfold re_match_rest; cbn [re_run];
    rewrite (re_run_name t r0 ext _ E);
    destruct Hext as [-> | [-> | [-> | ->]]]; reflexivity.
Qed.


Lemma find_first (p : str -> bool) (l : list str) (x : str) :
  In x l -> p x = true ->
  exists y, find p l = Some y /\ In y l /\ p y = true.
Proof.
  intros Hin Hp. destruct (find p l) as [y|] eqn:E.
  - exists y. apply find_some in E. tauto.
  - apply (find_none p l E) in Hin. congruence.
Qed.

(** A tool whose icon is in the icon folder gets an icon of the folder,
    never the default: with a file [t.png] ([.jpg], [.svg], or [tjpeg])
    listed, [find_icon] for [t] returns the path of a listed file that the
    tool's pattern finds (the first one, which may be another file whose
    name ends the same way), and leaves the file system as it is. *)
Theorem find_icon_own_icon (self : CustomShelf) (t ext : str) (tree : node)
  (names : list str) (r : regex) :
  listdir tree (icon_path self) = Ok names ->
  re_named_icon t = Ok r ->
  ext = py ".png" \/ ext = py ".jpg" \/ ext = py "jpeg" \/ ext = py ".svg" ->
  In (t ++ ext) names ->
  exists icon_file,
    find_icon self t tree = Ok (path_join (icon_path self) icon_file, tree) /\
    find (re_search r) names = Some icon_file /\
    In icon_file names /\
    re_search r icon_file = true.
Proof.
  intros Hl Hr Hext Hin.
  destruct (find_first (re_search r) names (t ++ ext) Hin
              (re_named_icon_own t ext r [] Hr Hext)) as [y [Hf [Hy Hm]]].
  exists y. repeat split; auto.
  unfold find_icon, path_exists. unfold listdir in Hl.
  destruct (resolve tree (icon_path self)) as [[|es]|] eqn:Er;
    try discriminate.
  cbn [is_some negb]. unfold listdir. rewrite Er. injection Hl as Hl.
  rewrite Hl. cbn [bind]. unfold pick_icon.
  destruct names as [|n names']; [contradiction|].
  rewrite Hr. cbn [bind]. rewrite Hf. reflexivity.
Qed.

Lemma find_icon_own_icon_witness :
  listdir brush_icon_fs (icon_path fresh_self) = Ok [py "brush.png"] /\
  In (py "brush" ++ py ".png") [py "brush.png"] /\
  find_icon fresh_self (py "brush") brush_icon_fs
  = Ok (py "shelf/icons/brush.png", brush_icon_fs).
Proof.
  split; [reflexivity|]. split; [left; reflexivity|].
  destruct (re_named_icon (py "brush")) as [r|] eqn:Hr; [|discriminate Hr].
  destruct (find_icon_own_icon fresh_self (py "brush") (py ".png")
              brush_icon_fs [py "brush.png"] r eq_refl Hr
              (or_introl eq_refl) (or_introl eq_refl))
    as [f [H _]].
  reflexivity.
Defined.



(* ------------------------------------------------------------------ *)
(** ** Creating the icon folder *)

Lemma fresh_dirs_walk (comps : list str) :
  forall (n : node) (anc : list node),
    fresh_dirs comps = Ok n ->
    walk n anc comps = Some (Dir []) /\ exists es, n = Dir es.
Proof.
  induction comps as [|c cs IH]; cbn [fresh_dirs]; intros n anc H.
  - injection H as <-. simpl. eauto.
  - destruct (str_eqb c [] || str_eqb c dot) eqn:Eskip.
    + destruct (IH n anc H) as [Hw [es ->]]. cbn [walk]. rewrite Eskip. eauto.
    + destruct (str_eqb c dotdot) eqn:Edd; [discriminate|].
      inv_bind H. injection H as <-. split; [|eauto].
      cbn [walk]. rewrite Eskip, Edd. cbn [entry_get]. rewrite str_eqb_refl.
      apply (IH a _ eq_refl).
Qed.

Lemma entry_get_set (c : str) (n : node) (es : list (str * node)) :
  entry_get c (entry_set c n es) = Some n.
Proof.
  induction es as [|[k x] es IH]; simpl.
  - now rewrite str_eqb_refl.
  - destruct (str_eqb k c) eqn:E; simpl; now rewrite E.
Qed.

Lemma entry_get_app_new (c : str) (n : node) (es : list (str * node)) :
  entry_get c es = None -> entry_get c (es ++ [(c, n)]) = Some n.
Proof.
  induction es as [|[k x] es IH]; simpl.
  - now rewrite str_eqb_refl.
  - destruct (str_eqb k c); [discriminate | exact IH].
Qed.

Lemma makedirs_from_walk (p : str) (comps : list str) :
  forall (cur cur' : node) (anc : list node),
    makedirs_from p cur false comps = Ok cur' ->
    walk cur' anc comps = Some (Dir []) /\ exists es, cur' = Dir es.
Proof.
  induction comps as [|c cs IH]; cbn [makedirs_from]; intros cur cur' anc H.
  - discriminate.
  - destruct cur as [|es]; [discriminate|].
    destruct (str_eqb c [] || str_eqb c dot) eqn:Eskip.
    + destruct (IH _ _ anc H) as [Hw [es' ->]]. cbn [walk]. rewrite Eskip.
      eauto.
    + destruct (str_eqb c dotdot) eqn:Edd; [discriminate|].
      destruct (entry_get c es) as [n|] eqn:Eg.
      * inv_bind H. injection H as <-. split; [|eauto].
        cbn [walk]. rewrite Eskip, Edd, entry_get_set.
        apply (IH n a). exact E.
      * inv_bind H. injection H as <-. split; [|eauto].
        cbn [walk]. rewrite Eskip, Edd, (entry_get_app_new c a es Eg).
        apply fresh_dirs_walk. exact E.
Qed.

(** [os.makedirs(p)], when it returns, has made [p] an empty directory. *)
Lemma makedirs_resolve (tree tree' : node) (p : str) :
  makedirs tree p = Ok tree' -> resolve tree' p = Some (Dir []).
Proof.
  unfold makedirs, resolve. destruct p as [|c p]; [discriminate|].
  intros H. apply (makedirs_from_walk _ _ _ _ [] H).
Qed.

(** Without an icon folder, the first icon resolution and the later ones
    disagree on the default icon.  The first call creates the folder and
    returns the bare name [commandButton.png]; from then on the folder
    exists and is empty, and every call returns the path
    [icon_path/commandButton.png], for any tool. *)
Theorem find_icon_default_changes (self : CustomShelf) (t : str)
  (tree tree' : node) (icon : str) :
  path_exists tree (icon_path self) = false ->
  find_icon self t tree = Ok (icon, tree') ->
  icon = default_icon /\
  path_isdir tree' (icon_path self) = true /\
  listdir tree' (icon_path self) = Ok [] /\
  forall t',
    find_icon self t' tree'
    = Ok (path_join (icon_path self) default_icon, tree').
Proof.
  intros He H. unfold find_icon in H. rewrite He in H. cbn [negb] in H.
  inv_bind H. injection H as <- <-.
  apply makedirs_resolve in E.
  split; [reflexivity|].
  split; [unfold path_isdir; now rewrite E|].
  split; [unfold listdir; now rewrite E|].
  intros t'. unfold find_icon, path_exists, listdir. rewrite E. reflexivity.
Qed.

Lemma find_icon_default_changes_witness :
  path_exists no_icons_fs (icon_path fresh_self) = false /\
  exists tree',
    find_icon fresh_self (py "snap") no_icons_fs
    = Ok (py "commandButton.png", tree') /\
    find_icon fresh_self (py "snap") tree'
    = Ok (py "shelf/icons/commandButton.png", tree').
Proof.
  split; [reflexivity|].
  destruct (find_icon fresh_self (py "snap") no_icons_fs)
    as [[icon tree']|] eqn:E; [|discriminate E].
  destruct (find_icon_default_changes fresh_self (py "snap") no_icons_fs
              tree' icon eq_refl E) as [-> [_ [_ H]]].
  exists tree'. split; [reflexivity|]. exact (H (py "snap")).
Defined.

(* ------------------------------------------------------------------ *)
(** ** Joining a directory and a name, and taking the name back *)

Lemma rsplit_slash_none (f : str) : ~ In slash f -> rsplit_slash f = None.
Proof.
  induction f as [|c f IH]; simpl; auto.
  intros H. rewrite IH by tauto.
  destruct (chr_eqb c slash) eqn:E; auto.
  apply chr_eqb_eq in E. subst c. tauto.
Qed.

Lemma rsplit_slash_after (a f : str) :
  ~ In slash f ->
  rsplit_slash ((a ++ [slash]) ++ f) = Some (a ++ [slash], f).
Proof.
  intros Hf. induction a as [|c a IH]; simpl.
  - rewrite (rsplit_slash_none f Hf). reflexivity.
  - simpl in IH. now rewrite IH.
Qed.

Lemma ends_with_slash_inv (a : str) :
  ends_with_slash a = true -> exists a', a = a' ++ [slash].
Proof.
  unfold ends_with_slash. intros H.
  destruct (rev a) as [|c r] eqn:E; [discriminate|].
  apply chr_eqb_eq in H. subst c. exists (rev r).
  rewrite <- (rev_involutive a), E. reflexivity.
Qed.

Lemma starts_with_slash_free (f : str) :
  ~ In slash f -> starts_with_slash f = false.
Proof.
  destruct f as [|c f]; simpl; auto. intros H.
  destruct (chr_eqb c slash) eqn:E; auto.
  apply chr_eqb_eq in E. subst c. tauto.
Qed.

Lemma basename_of_join (d name : str) :
  ~ In slash name -> basename (path_join d name) = name.
Proof.
  intros Hn. unfold path_join, basename.
  rewrite (starts_with_slash_free name Hn).
  destruct d as [|c d].
  - now rewrite (rsplit_slash_none name Hn).
  - destruct (ends_with_slash (c :: d)) eqn:E.
    + apply ends_with_slash_inv in E. destruct E as [a' ->].
      now rewrite rsplit_slash_after.
    + change ((c :: d) ++ slash :: name)
        with ((c :: d) ++ [slash] ++ name).
      rewrite app_assoc. now rewrite rsplit_slash_after.
Qed.

(** [os.path.basename(os.path.join(d, name)) == name] for every directory
    path [d] and every name without a slash: the key of a popup folder
    gives back the folder's name, which is its button's label and its key
    in the popup-menu registry. *)
Theorem basename_path_join (d name : str) :
  ~ In slash name -> basename (path_join d name) = name.
Proof. exact (basename_of_join d name). Qed.

Lemma basename_path_join_witness :
  ~ In slash (py "align") /\
  basename (path_join (py "shelf/rigging/") (py "align")) = py "align" /\
  basename (path_join (py "shelf/rigging") (py "align")) = py "align".
Proof.
  assert (H : ~ In slash (py "align")).
  { simpl. intuition discriminate. }
  split; [exact H|]. split.
  - exact (basename_path_join (py "shelf/rigging/") (py "align") H).
  - exact (basename_path_join (py "shelf/rigging") (py "align") H).
Defined.

Lemma path_join_app (d x ext : str) :
  ~ In slash x -> starts_with_slash ext = false ->
  path_join d (x ++ ext) = path_join d x ++ ext.
Proof.
  intros Hx He. unfold path_join.
  rewrite (starts_with_slash_free x Hx).
  assert (Hs : starts_with_slash (x ++ ext) = false).
  { destruct x as [|c x]; [exact He|].
    exact (starts_with_slash_free (c :: x) Hx). }
  rewrite Hs. destruct d as [|c d]; auto.
  destruct (ends_with_slash (c :: d)).
  - now rewrite app_assoc.
  - change ((c :: d) ++ slash :: x ++ ext)
      with ((c :: d) ++ (slash :: x) ++ ext).
    now rewrite app_assoc.
Qed.

(** The tool name of a discovered script: for the path discovery builds
    from a directory and a listed name [x.py] or [x.mel], [filter_py_mel]
    returns the tool name [x], whatever the directory, and the command of
    the extension's language on the whole path. *)
Theorem filter_py_mel_discovered (d x ext : str) (cmd : str -> str) :
  ~ In slash x ->
  script_ext ext cmd ->
  filter_py_mel (path_join d (x ++ ext))
  = (x, cmd (path_join d (x ++ ext))).
Proof.
  intros Hx Hext.
  assert (He : starts_with_slash ext = false) by (destruct Hext; reflexivity).
  rewrite (path_join_app d x ext Hx He).
  rewrite (filter_py_mel_ext (path_join d x) ext cmd Hext).
  now rewrite (basename_of_join d x Hx).
Qed.

Lemma filter_py_mel_discovered_witness :
  ~ In slash (py "my_tool") /\
  script_ext (py ".mel") mel_command /\
  filter_py_mel (py "shelf/rigging/my_tool.mel")
  = (py "my_tool", mel_command (py "shelf/rigging/my_tool.mel")).
Proof.
  assert (H : ~ In slash (py "my_tool")).
  { simpl. intuition discriminate. }
  split; [exact H|]. split; [constructor|].
  exact (filter_py_mel_discovered (py "shelf/rigging") (py "my_tool")
           (py ".mel") mel_command H ext_mel).
Defined.

(* ------------------------------------------------------------------ *)
(** ** What rendering leaves in place *)

Lemma dict_keys_set_present {V} (k : str) (v : V) (d : dict V) :
  dict_has k d = true -> dict_keys (dict_set k v d) = dict_keys d.
Proof.
  unfold dict_has, dict_keys. induction d as [|[k' v'] d IH]; simpl.
  - discriminate.
  - destruct (str_eqb k' k) eqn:E; simpl; auto.
    intros H. now rewrite IH.
Qed.

Lemma dict_has_of_keys {V W} (k : str) (d : dict V) (d' : dict W) :
  dict_keys d = dict_keys d' -> dict_has k d = dict_has k d'.
Proof.
  unfold dict_has, dict_keys. revert d'.
  induction d as [|[k1 v1] d IH]; intros [|[k2 v2] d']; simpl;
    try discriminate; auto.
  intros [= -> H]. destruct (str_eqb k2 k); auto.
Qed.

Lemma add_widget_keys (parent : option str) (mk : nat -> widget)
  (u u' : ui) (id : nat) :
  add_widget parent mk u = Ok (id, u') ->
  dict_keys (layouts u') = dict_keys (layouts u).
Proof.
  unfold add_widget. intros H.
  destruct parent as [name|]; [|discriminate].
  destruct (dict_get name (layouts u)) as [ws|] eqn:Hg; [|discriminate].
  injection H as _ <-. simpl. apply dict_keys_set_present.
  unfold dict_has. now rewrite Hg.
Qed.

Lemma add_item_to_keys (popup : nat) (w : widget) (ls : dict (list widget)) :
  forall ls', add_item_to popup w ls = Some ls' -> dict_keys ls' = dict_keys ls.
Proof.
  induction ls as [|[k ws] ls IH]; simpl; intros ls' H; [discriminate|].
  destruct (existsb (is_button popup) ws).
  - now injection H as <-.
  - destruct (add_item_to popup w ls) as [t'|]; [|discriminate].
    injection H as <-. simpl. f_equal. now apply IH.
Qed.

Lemma menuItem_keys (label st : str) (popup : nat) (command : str)
  (u u' : ui) (id : nat) :
  menuItem label st popup command u = Ok (id, u') ->
  dict_keys (layouts u') = dict_keys (layouts u).
Proof.
  unfold menuItem. intros H.
  destruct (add_item_to _ _ _) as [ls|] eqn:E; [|discriminate].
  injection H as _ <-. simpl. eapply add_item_to_keys; eauto.
Qed.

Lemma add_buttons_from_path_keys (self : CustomShelf) (paths : list str) :
  forall (w w' : world) (ids : list nat),
    add_buttons_from_path self paths w = Ok (ids, w') ->
    dict_keys (layouts (host w')) = dict_keys (layouts (host w)).
Proof.
  induction paths as [|path rest IH]; simpl; intros w w' ids H.
  - now injection H as _ <-.
  - inv_bind H. destruct a as [icon fs1].
    inv_bind H. destruct a as [button u1].
    inv_bind H. destruct a as [bs w2].
    injection H as _ <-.
    rewrite (IH _ _ _ E1). simpl.
    unfold shelfButton in E0. eapply add_widget_keys; eauto.
Qed.

Lemma add_menu_items_keys (popup : nat) (scripts : list str) :
  forall (u u' : ui),
    add_menu_items popup scripts u = Ok u' ->
    dict_keys (layouts u') = dict_keys (layouts u).
Proof.
  induction scripts as [|script rest IH]; simpl; intros u u' H.
  - now injection H as <-.
  - destruct (re_search re_init script); [eauto|].
    inv_bind H. destruct a as [id u1].
    rewrite (IH _ _ H). eapply menuItem_keys; eauto.
Qed.

Lemma take_button_script_length (tool_name : str) (scripts scripts1 : list str)
  (o : option str) :
  take_button_script tool_name scripts = Ok (o, scripts1) ->
  length scripts1 <= length scripts.
Proof.
  unfold take_button_script. destruct scripts as [|s0 scripts'].
  - intros [= _ <-]. auto.
  - intros H. inv_bind H.
    destruct (find _ _) as [p|]; injection H as _ <-;
      [apply (list_remove_length p (s0 :: scripts')) | auto].
Qed.

Lemma add_popup_button_frame (self self' : CustomShelf) (tool_path : str)
  (d d' : dict (list str)) (w w' : world) :
  add_popup_button self tool_path d w = Ok (self', d', w') ->
  (exists popup,
      self' = set_popup_menus self
                (dict_set (basename tool_path) popup (popup_menus self))) /\
  (exists scripts scripts1,
      dict_get tool_path d = Some scripts /\
      d' = dict_set tool_path scripts1 d /\
      length scripts1 <= length scripts) /\
  dict_keys (layouts (host w')) = dict_keys (layouts (host w)).
Proof.
  unfold add_popup_button. intros H.
  inv_bind H. rename a into scripts, E into Hd.
  inv_bind H. destruct a as [button_script scripts1]. rename E into Ht.
  inv_bind H. destruct a as [new_button w1]. rename E into Hb.
  inv_bind H. inv_bind H. inv_bind H. rename E1 into Hitems.
  injection H as <- <- <-.
  split; [eauto|]. split.
  - exists scripts, scripts1. unfold dict_item in Hd.
    destruct (dict_get tool_path d); [|discriminate].
    injection Hd as ->. repeat split; auto.
    eapply take_button_script_length; eauto.
  - simpl. rewrite (add_menu_items_keys _ _ _ _ Hitems).
    destruct button_script as [script_path|].
    + inv_bind Hb. destruct a2 as [buttons w2].
      inv_bind Hb. injection Hb as _ <-.
      eapply add_buttons_from_path_keys; eauto.
    + inv_bind Hb. destruct a2 as [icon fs1].
      inv_bind Hb. destruct a2 as [b u1].
      injection Hb as _ <-. simpl.
      unfold shelfButton in E2. eapply add_widget_keys; eauto.
Qed.

Lemma only_registry_differs_trans (a b c : CustomShelf) :
  only_registry_differs a b -> only_registry_differs b c ->
  only_registry_differs a c.
Proof.
  unfold only_registry_differs. intros <- <-. reflexivity.
Qed.

Lemma popup_buttons_loop_frame (keys : list str) :
  forall (self self' : CustomShelf) (d d' : dict (list str)) (w w' : world),
    popup_buttons_loop self keys d w = Ok (self', d', w') ->
    only_registry_differs self self' /\
    dict_keys d' = dict_keys d /\
    (forall k l, dict_get k d = Some l ->
                 exists l', dict_get k d' = Some l' /\ length l' <= length l) /\
    (forall k, In k keys ->
               dict_has (basename k) (popup_menus self') = true) /\
    (forall k, dict_has k (popup_menus self) = true ->
               dict_has k (popup_menus self') = true) /\
    dict_keys (layouts (host w')) = dict_keys (layouts (host w)).
Proof.
  induction keys as [|key keys IH]; cbn [popup_buttons_loop];
    intros self self' d d' w w' H.
  - injection H as <- <- <-.
    split; [unfold only_registry_differs; now destruct self|].
    split; [reflexivity|].
    split; [intros k l Hl; exists l; auto|].
    split; [intros k []|]. auto.
  - inv_bind H. destruct a as [[self1 d1] w1].
    apply add_popup_button_frame in E.
    destruct E as [[popup ->] [[scripts [scripts1 [Hg [-> Hlen]]]] Hk1]].
    destruct (IH _ _ _ _ _ _ H) as [Hr [Hk [Hl [Hreg [Hmono Hhost]]]]].
    split; [|split; [|split; [|split; [|split]]]].
    + eapply only_registry_differs_trans; [|exact Hr].
      reflexivity.
    + rewrite Hk. apply dict_keys_set_present. unfold dict_has.
      now rewrite Hg.
    + intros k l Hkl. destruct (str_eqb key k) eqn:Ek.
      * apply str_eqb_eq in Ek. subst k.
        destruct (Hl key scripts1 (dict_get_set_same key scripts1 d))
          as [l' [Hl' Hlen']].
        exists l'. split; auto. rewrite Hg in Hkl. injection Hkl as <-. lia.
      * apply str_eqb_neq in Ek. apply Hl.
        now rewrite dict_get_set_other.
    + intros k [<- | Hin]; [|auto].
      apply Hmono. cbn [popup_menus set_popup_menus].
      rewrite dict_has_set. now rewrite str_eqb_refl.
    + intros k Hk0. apply Hmono. cbn [popup_menus set_popup_menus].
      rewrite dict_has_set, Hk0. apply orb_true_r.
    + now rewrite Hhost.
Qed.

(** After popup rendering, [add_menu_item] finds the popup menu of every
    rendered folder under the folder's name: it does not raise [KeyError]
    but makes the host's [menuItem] call on the registered menu. *)
Theorem add_menu_item_after_rendering (self self' : CustomShelf)
  (d d' : dict (list str)) (w w' : world) (tool_path : str) :
  add_popup_button_from_paths self d w = Ok (self', d', w') ->
  In tool_path (dict_keys d) ->
  exists popup_menu,
    dict_get (basename tool_path) (popup_menus self') = Some popup_menu /\
    forall item_name language command u,
      add_menu_item self' item_name (basename tool_path) language command u
      = menuItem item_name python popup_menu command u.
Proof.
  intros H Hin. unfold add_popup_button_from_paths in H.
  apply popup_buttons_loop_frame in H.
  destruct H as [_ [_ [_ [Hreg _]]]].
  specialize (Hreg tool_path Hin). unfold dict_has in Hreg.
  destruct (dict_get (basename tool_path) (popup_menus self'))
    as [popup_menu|] eqn:E; [|discriminate].
  exists popup_menu. split; auto.
  intros item_name language command u.
  unfold add_menu_item, dict_item. now rewrite E.
Qed.

Lemma add_menu_item_after_rendering_witness :
  let folder := py "shelf/rigging/align" in
  let d := [(folder, [py "shelf/rigging/align/align.py"])] in
  In folder (dict_keys d) /\
  exists self' d' w',
    add_popup_button_from_paths fresh_self d (fresh_world scenario_fs)
    = Ok (self', d', w') /\
    exists id u',
      add_menu_item self' (py "extra") (py "align") (py "mel") (py "print(1)")
        (host w')
      = Ok (id, u') /\
      map widget_label (widgets_of S_name u') = [py "align"; py "extra"].
Proof.
  intros folder d. split; [left; reflexivity|].
  destruct (add_popup_button_from_paths fresh_self d (fresh_world scenario_fs))
    as [[[self' d'] w']|] eqn:E; [|discriminate E].
  exists self', d', w'. split; [reflexivity|].
  destruct (add_menu_item_after_rendering fresh_self self' d d'
              (fresh_world scenario_fs) w' folder E (or_introl eq_refl))
    as [popup_menu [Hg Hcall]].
  change (basename folder) with (py "align") in Hcall.
  rewrite Hcall.
  injection E as <- _ <-. injection Hg as <-.
  eexists _, _. split; reflexivity.
Defined.

Lemma forallb_pointwise {A} (f g : A -> bool) (l : list A) :
  (forall x, f x = g x) -> forallb f l = forallb g l.
Proof.
  intros H. induction l as [|x l IH]; simpl; auto. now rewrite H, IH.
Qed.

Lemma only_registry_differs_fields (self self1 : CustomShelf) :
  only_registry_differs self self1 ->
  shelf self1 = shelf self /\
  shelf_name self1 = shelf_name self /\
  icon_path self1 = icon_path self /\
  categories self1 = categories self /\
  tool_paths self1 = tool_paths self /\
  popup_tool_dict self1 = popup_tool_dict self.
Proof.
  unfold only_registry_differs. intros <-. repeat split.
Qed.

Lemma create_separator_keys (self : CustomShelf) (u u' : ui) :
  create_separator self u = Ok u' ->
  dict_keys (layouts u') = dict_keys (layouts u).
Proof.
  unfold create_separator, separator. intros H.
  inv_bind H. destruct a as [id u1]. injection H as <-.
  eapply add_widget_keys; eauto.
Qed.

Lemma render_categories_frame (cats : list str) :
  forall (self self' : CustomShelf) (w w' : world),
    render_categories self cats w = Ok (self', w') ->
    shelf self' = shelf self /\
    shelf_name self' = shelf_name self /\
    icon_path self' = icon_path self /\
    categories self' = categories self /\
    tool_paths self' = tool_paths self /\
    dict_keys (popup_tool_dict self') = dict_keys (popup_tool_dict self) /\
    (forall k, dict_has k (popup_menus self) = true ->
               dict_has k (popup_menus self') = true) /\
    dict_keys (layouts (host w')) = dict_keys (layouts (host w)).
Proof.
  induction cats as [|category rest IH]; cbn [render_categories];
    intros self self' w w' H.
  - injection H as <- <-. repeat split; auto.
  - inv_bind H. rename E into Hpaths.
    inv_bind H. destruct a0 as [ids w1]. rename E into Hflat.
    inv_bind H. rename E into Hd.
    inv_bind H. destruct a1 as [[self1 d1] w2]. rename E into Hpopup.
    inv_bind H. rename E into Hsep.
    apply add_buttons_from_path_keys in Hflat.
    unfold add_popup_button_from_paths in Hpopup.
    apply popup_buttons_loop_frame in Hpopup.
    destruct Hpopup as [Hr [_ [_ [_ [Hmono Hk2]]]]].
    apply create_separator_keys in Hsep.
    destruct (IH _ _ _ _ H) as [H1 [H2 [H3 [H4 [H5 [H6 [H7 H8]]]]]]].
    apply only_registry_differs_fields in Hr.
    destruct Hr as [R1 [R2 [R3 [R4 [R5 R6]]]]].
    cbn [shelf shelf_name icon_path categories tool_paths popup_tool_dict
           popup_menus set_popup_tool_dict host layouts]
      in H1, H2, H3, H4, H5, H6, H7, H8.
    rewrite R1 in H1. rewrite R2 in H2. rewrite R3 in H3. rewrite R4 in H4.
    rewrite R5 in H5. rewrite R6 in H6.
    repeat split; auto.
    + rewrite H6. apply dict_keys_set_present.
      unfold dict_has, dict_item in *.
      destruct (dict_get category (popup_tool_dict self)); [reflexivity|].
      discriminate.
    + rewrite H8, Hsep, Hk2. exact Hflat.
Qed.

(** What a successful [create_shelf] leaves: the object's shelf is the
    layout named [shelf_name], that layout exists in the host, the
    categories and the flat tool lists are the ones before the call, the
    popup dictionaries keep their categories, and every category still has
    its two entries if it had them.  So the next [create_shelf] on the
    result finds the shelf, deletes it and builds it again. *)
Theorem create_shelf_frame (depth : nat) :
  forall (self self' : CustomShelf) (w w' : world),
    create_shelf depth self w = Ok (self', w') ->
    shelf self' = Some (shelf_name self) /\
    shelfLayout_exists (shelf_name self) (host w') = true /\
    shelf_name self' = shelf_name self /\
    categories self' = categories self /\
    tool_paths self' = tool_paths self /\
    dict_keys (popup_tool_dict self') = dict_keys (popup_tool_dict self) /\
    discovered self' = discovered self /\
    (forall k, create_shelf (S (S k)) self' w' = reload_shelf (S k) self' w').
Proof.
  induction depth as [|depth IH]; cbn [create_shelf]; intros self self' w w' H.
  - discriminate.
  - destruct (shelfLayout_exists (shelf_name self) (host w)) eqn:He;
      cbn [negb] in H.
    + inv_bind H. exact (IH _ _ _ _ H).
    + unfold shelfLayout_create in H. rewrite He in H. cbn [bind] in H.
      apply render_categories_frame in H.
      cbn [shelf shelf_name icon_path categories tool_paths popup_tool_dict
             popup_menus set_shelf host layouts] in H.
      destruct H as [H1 [H2 [H3 [H4 [H5 [H6 [H7 H8]]]]]]].
      assert (Hex : shelfLayout_exists (shelf_name self) (host w') = true).
      { unfold shelfLayout_exists.
        change (is_some (dict_get (shelf_name self) (layouts (host w'))))
          with (dict_has (shelf_name self) (layouts (host w'))).
        rewrite (dict_has_of_keys (shelf_name self) _ _ H8).
        unfold dict_has. now rewrite dict_get_set_same. }
      repeat split; auto.
      * unfold discovered. rewrite H4, H5.
        apply forallb_pointwise. intros c.
        now rewrite (dict_has_of_keys c _ _ H6).
      * intros k. unfold reload_shelf. cbn [create_shelf].
        rewrite H2, Hex. reflexivity.
Qed.

Lemma create_shelf_frame_witness :
  exists self self' w',
    init shelf_root S_name scenario_fs = Ok self /\
    create_shelf recursion_limit self {| fs := scenario_fs; host := ui_empty |}
    = Ok (self', w') /\
    shelf self' = Some S_name /\
    shelfLayout_exists S_name (host w') = true /\
    discovered self' = true.
Proof.
  destruct (init shelf_root S_name scenario_fs) as [self|] eqn:Ei;
    [|discriminate Ei].
  destruct (create_shelf recursion_limit self
              {| fs := scenario_fs; host := ui_empty |})
    as [[self' w']|] eqn:E;
    [|injection Ei as <-; vm_compute in E; discriminate E].
  destruct (create_shelf_frame recursion_limit self self' _ w' E)
    as [H1 [H2 [_ [_ [_ [_ [H7 _]]]]]]].
  assert (Hn : shelf_name self = S_name) by (injection Ei as <-; reflexivity).
  rewrite Hn in H1, H2.
  exists self, self', w'. repeat split; auto.
  rewrite H7. injection Ei as <-. reflexivity.
Defined.

(** The recursion limit plays no role: [create_shelf] either builds at
    once or deletes the shelf and builds in one nested call, so every
    depth of two or more gives the result of depth two. *)
Theorem create_shelf_depth (k : nat) (self : CustomShelf) (w : world) :
  create_shelf (S (S k)) self w = create_shelf 2 self w.
Proof.
  destruct (shelfLayout_exists (shelf_name self) (host w)) eqn:He.
  - destruct (create_shelf_rebuild_steps k self w He) as [_ [_ ->]].
    destruct (create_shelf_rebuild_steps 0 self w He) as [_ [_ ->]].
    reflexivity.
  - cbn [create_shelf]. rewrite He. reflexivity.
Qed.

(* ------------------------------------------------------------------ *)
(** ** One separator per category *)

Lemma separators_add_widget (name : str) (parent : option str)
  (mk : nat -> widget) (u u' : ui) (id : nat) :
  add_widget parent mk u = Ok (id, u') ->
  (forall i, is_separator (mk i) = false) ->
  separators_of name u' = separators_of name u.
Proof.
  unfold add_widget, separators_of, widgets_of. intros H Hmk.
  destruct parent as [p|]; [|discriminate].
  destruct (dict_get p (layouts u)) as [ws|] eqn:Hg; [|discriminate].
  injection H as _ <-. cbn [layouts].
  destruct (str_eqb p name) eqn:E.
  - apply str_eqb_eq in E. subst p. rewrite dict_get_set_same, Hg.
    rewrite filter_app. simpl. rewrite Hmk. apply app_nil_r.
  - apply str_eqb_neq in E. now rewrite dict_get_set_other.
Qed.

Lemma separators_add_item_to (name : str) (popup : nat) (w : widget)
  (ls : dict (list widget)) :
  is_separator w = false ->
  forall ls',
    add_item_to popup w ls = Some ls' ->
    filter is_separator
      (match dict_get name ls' with Some ws => ws | None => [] end)
    = filter is_separator
        (match dict_get name ls with Some ws => ws | None => [] end).
Proof.
  intros Hw. induction ls as [|[k ws] ls IH]; simpl; intros ls' H;
    [discriminate|].
  destruct (existsb (is_button popup) ws).
  - injection H as <-. simpl. destruct (str_eqb k name); auto.
    rewrite filter_app. simpl. rewrite Hw. apply app_nil_r.
  - destruct (add_item_to popup w ls) as [t'|]; [|discriminate].
    injection H as <-. simpl. destruct (str_eqb k name); auto.
Qed.

Lemma separators_menuItem (name label st : str) (popup : nat) (command : str)
  (u u' : ui) (id : nat) :
  menuItem label st popup command u = Ok (id, u') ->
  separators_of name u' = separators_of name u.
Proof.
  unfold menuItem, separators_of, widgets_of. intros H.
  destruct (add_item_to _ _ _) as [ls|] eqn:E; [|discriminate].
  injection H as _ <-. cbn [layouts].
  exact (separators_add_item_to name popup
           (MenuItem (next_id u) label st popup command) (layouts u)
           eq_refl ls E).
Qed.

Lemma separators_add_buttons (name : str) (self : CustomShelf)
  (paths : list str) :
  forall (w w' : world) (ids : list nat),
    add_buttons_from_path self paths w = Ok (ids, w') ->
    separators_of name (host w') = separators_of name (host w).
Proof.
  induction paths as [|path rest IH]; simpl; intros w w' ids H.
  - now injection H as _ <-.
  - inv_bind H. destruct a as [icon fs1].
    inv_bind H. destruct a as [button u1].
    inv_bind H. destruct a as [bs w2].
    injection H as _ <-.
    rewrite (IH _ _ _ E1). simpl.
    unfold shelfButton in E0. eapply separators_add_widget; eauto.
Qed.

Lemma separators_add_menu_items (name : str) (popup : nat)
  (scripts : list str) :
  forall (u u' : ui),
    add_menu_items popup scripts u = Ok u' ->
    separators_of name u' = separators_of name u.
Proof.
  induction scripts as [|script rest IH]; simpl; intros u u' H.
  - now injection H as <-.
  - destruct (re_search re_init script); [eauto|].
    inv_bind H. destruct a as [id u1].
    rewrite (IH _ _ H). eapply separators_menuItem; eauto.
Qed.

Lemma separators_add_popup_button (name : str) (self self' : CustomShelf)
  (tool_path : str) (d d' : dict (list str)) (w w' : world) :
  add_popup_button self tool_path d w = Ok (self', d', w') ->
  separators_of name (host w') = separators_of name (host w).
Proof.
  unfold add_popup_button. intros H.
  inv_bind H. inv_bind H. destruct a0 as [button_script scripts1].
  inv_bind H. destruct a0 as [new_button w1]. rename E1 into Hb.
  inv_bind H. inv_bind H. inv_bind H. rename E3 into Hitems.
  injection H as _ _ <-. cbn [host].
  rewrite (separators_add_menu_items name _ _ _ _ Hitems).
  destruct button_script as [script_path|].
  - inv_bind Hb. destruct a3 as [buttons w2].
    inv_bind Hb. injection Hb as _ <-.
    eapply separators_add_buttons; eauto.
  - inv_bind Hb. destruct a3 as [icon fs1].
    inv_bind Hb. destruct a3 as [b u1].
    injection Hb as _ <-. cbn [host].
    unfold shelfButton in E4. eapply separators_add_widget; eauto.
Qed.

Lemma separators_popup_loop (name : str) (keys : list str) :
  forall (self self' : CustomShelf) (d d' : dict (list str)) (w w' : world),
    popup_buttons_loop self keys d w = Ok (self', d', w') ->
    separators_of name (host w') = separators_of name (host w).
Proof.
  induction keys as [|k keys IH]; simpl; intros self self' d d' w w' H.
  - now injection H as _ _ <-.
  - inv_bind H. destruct a as [[self1 d1] w1].
    rewrite (IH _ _ _ _ _ _ H).
    eapply separators_add_popup_button; eauto.
Qed.

Lemma separators_create_separator (self : CustomShelf) (name : str)
  (u u' : ui) :
  shelf self = Some name ->
  create_separator self u = Ok u' ->
  length (separators_of name u') = S (length (separators_of name u)).
Proof.
  unfold create_separator, separator, add_widget. intros Hs H.
  rewrite Hs in H.
  destruct (dict_get name (layouts u)) as [ws|] eqn:Hg; [|discriminate].
  cbn [bind] in H. injection H as <-.
  unfold separators_of, widgets_of. cbn [layouts].
  rewrite dict_get_set_same, Hg, filter_app, length_app. simpl. lia.
Qed.

Lemma separators_render (name : str) (cats : list str) :
  forall (self self' : CustomShelf) (w w' : world),
    shelf self = Some name ->
    render_categories self cats w = Ok (self', w') ->
    length (separators_of name (host w'))
    = length (separators_of name (host w)) + length cats.
Proof.
  induction cats as [|category rest IH]; cbn [render_categories];
    intros self self' w w' Hs H.
  - injection H as _ <-. simpl. lia.
  - inv_bind H. inv_bind H. destruct a0 as [ids w1]. rename E0 into Hflat.
    inv_bind H. inv_bind H. destruct a1 as [[self1 d1] w2].
    rename E1 into Hpopup.
    inv_bind H. rename E1 into Hsep.
    unfold add_popup_button_from_paths in Hpopup.
    pose proof (popup_buttons_loop_frame _ _ _ _ _ _ _ Hpopup) as [Hr _].
    apply only_registry_differs_fields in Hr. destruct Hr as [R1 _].
    assert (Hs2 : shelf (set_popup_tool_dict self1
                           (dict_set category d1 (popup_tool_dict self1)))
                  = Some name) by (cbn; congruence).
    rewrite (IH _ _ _ _ Hs2 H). cbn [host length].
    rewrite (separators_create_separator _ name _ _ Hs2 Hsep).
    rewrite (separators_popup_loop name _ _ _ _ _ _ _ Hpopup).
    rewrite (separators_add_buttons name _ _ _ _ _ Hflat). lia.
Qed.

(** A shelf that [create_shelf] has built holds exactly one separator per
    category, whether the shelf was built for the first time or rebuilt
    over an existing one, and also for a category without any tool. *)
Theorem create_shelf_separators (depth : nat) :
  forall (self self' : CustomShelf) (w w' : world),
    create_shelf depth self w = Ok (self', w') ->
    length (separators_of (shelf_name self) (host w'))
    = length (categories self).
Proof.
  induction depth as [|depth IH]; cbn [create_shelf]; intros self self' w w' H.
  - discriminate.
  - destruct (shelfLayout_exists (shelf_name self) (host w)) eqn:He;
      cbn [negb] in H.
    + inv_bind H. exact (IH _ _ _ _ H).
    + unfold shelfLayout_create in H. rewrite He in H. cbn [bind] in H.
      apply (separators_render (shelf_name self)) in H; [|reflexivity].
      rewrite H. cbn [host categories set_shelf].
      unfold separators_of, widgets_of. cbn [layouts].
      now rewrite dict_get_set_same.
Qed.

Lemma create_shelf_separators_witness :
  exists self self' w',
    init shelf_root S_name scenario_fs = Ok self /\
    create_shelf recursion_limit self {| fs := scenario_fs; host := ui_empty |}
    = Ok (self', w') /\
    length (separators_of S_name (host w')) = 1.
Proof.
  destruct (init shelf_root S_name scenario_fs) as [self|] eqn:Ei;
    [|discriminate Ei].
  destruct (create_shelf recursion_limit self
              {| fs := scenario_fs; host := ui_empty |})
    as [[self' w']|] eqn:E;
    [|injection Ei as <-; vm_compute in E; discriminate E].
  pose proof (create_shelf_separators recursion_limit self self' _ w' E) as H.
  assert (Hn : shelf_name self = S_name) by (injection Ei as <-; reflexivity).
  assert (Hc : length (categories self) = 1)
    by (injection Ei as <-; reflexivity).
  rewrite Hn, Hc in H.
  exists self, self', w'. repeat split; auto.
Defined.

Lemma create_shelf_rebuild_witness :
  let w := fresh_world scenario_fs in
  shelfLayout_exists (shelf_name fresh_self) (host w) = true /\
  create_shelf recursion_limit fresh_self w
  = create_shelf 1 fresh_self
      {| fs := scenario_fs; host := {| next_id := 0; layouts := [] |} |}.
Proof.
  intros w. split; [reflexivity|].
  exact (proj2 (proj2 (create_shelf_rebuild 998 fresh_self w eq_refl))).
Defined.

Lemma find_icon_total_witness :
  path_isdir brush_icon_fs (icon_path fresh_self) = true /\
  (exists r, re_of_name (py "my.tool") = Some r) /\
  exists icon,
    find_icon fresh_self (py "my.tool") brush_icon_fs = Ok (icon, brush_icon_fs).
Proof.
  split; [reflexivity|].
  destruct (re_of_name (py "my.tool")) as [r|] eqn:E; [|discriminate E].
  split; [exists r; reflexivity|].
  exact (find_icon_total fresh_self (py "my.tool") brush_icon_fs r eq_refl E).
Defined.

(* ------------------------------------------------------------------ *)
(** ** Flat buttons, one per path *)

Lemma find_icon_keeps_fs (self : CustomShelf) (t : str) (tree tree' : node)
  (icon : str) :
  path_exists tree (icon_path self) = true ->
  find_icon self t tree = Ok (icon, tree') -> tree' = tree.
Proof.
  unfold find_icon. intros He H. rewrite He in H. cbn [negb] in H.
  inv_bind H. inv_bind H. now injection H as _ <-.
Qed.

Lemma rendered_on_from (self : CustomShelf) (tree : node) (p : str)
  (b : widget) :
  rendered_on self tree p b -> rendered_from self p b.
Proof. intros [icon [H1 H2]]. exists icon, tree, tree. auto. Qed.

(** What [add_buttons_from_path] has done when it returns. *)
Lemma add_buttons_from_path_spec (self : CustomShelf) (name : str)
  (paths : list str) :
  shelf self = Some name ->
  forall (w w' : world) (ids : list nat),
    add_buttons_from_path self paths w = Ok (ids, w') ->
    exists new,
      widgets_of name (host w') = widgets_of name (host w) ++ new /\
      Forall2 (rendered_from self) paths new /\
      map widget_id new = ids /\
      ids = seq (next_id (host w)) (length paths) /\
      next_id (host w') = next_id (host w) + length paths /\
      (path_exists (fs w) (icon_path self) = true ->
       fs w' = fs w /\ Forall2 (rendered_on self (fs w)) paths new).
Proof.
  intros Hshelf. induction paths as [|path rest IH]; intros w w' ids H.
  - simpl in H. injection H as <- <-. exists []. rewrite app_nil_r.
    simpl. repeat split; auto.
  - cbn [add_buttons_from_path] in H.
    inv_bind H. destruct a as [icon fs1]. rename E into Hicon.
    inv_bind H. destruct a as [button u1]. rename E into Hbtn.
    inv_bind H. destruct a as [bs w2]. rename E into Hrest.
    injection H as <- <-.
    unfold shelfButton, add_widget in Hbtn. rewrite Hshelf in Hbtn.
    destruct (dict_get name (layouts (host w))) as [ws|] eqn:Hg;
      [|discriminate].
    injection Hbtn as <- <-.
    destruct (IH _ _ _ Hrest) as [new [Hw [Hf [Hid [Hseq [Hnext Hex]]]]]].
    cbn [host next_id fs] in *.
    assert (Hws : widgets_of name (host w) = ws)
      by (unfold widgets_of; now rewrite Hg).
    unfold widgets_of in Hw at 2. cbn [layouts] in Hw.
    rewrite dict_get_set_same in Hw.
    exists (flat_button (next_id (host w)) path icon fs1 :: new).
    rewrite Hws, Hw, <- app_assoc.
    split; [reflexivity|].
    split.
    { constructor; [|exact Hf]. exists icon, (fs w), fs1. auto. }
    split; [cbn [map flat_button widget_id]; now rewrite Hid|].
    split; [cbn [length seq]; now rewrite <- Hseq|].
    split; [rewrite Hnext; cbn [length]; lia|].
    intros He.
    pose proof (find_icon_keeps_fs _ _ _ _ _ He Hicon) as ->.
    destruct (Hex He) as [Hfs Hon].
    split; [exact Hfs|].
    constructor; [|exact Hon]. exists icon. auto.
Qed.


Lemma Forall2_impl {A B} (P Q : A -> B -> Prop) (l : list A) (l' : list B) :
  (forall a b, P a b -> Q a b) -> Forall2 P l l' -> Forall2 Q l l'.
Proof. intros H. induction 1; constructor; auto. Qed.



(** [add_buttons_from_path], when it returns, has appended to the shelf
    exactly one widget per path, in the order of the paths, and each one
    is the shelf button of its path: label and command as [filter_py_mel]
    derives them from the path, no source type, the icon some resolution
    for the path's tool name returned, and the double-click command
    derived from the dcc script found after that resolution.  The handles
    returned are the buttons' identifiers, consecutive from the host's
    next one; an empty list adds nothing.  When the icon folder exists
    before the call, the file system is unchanged and every icon and dcc
    script is resolved on it. *)
Theorem add_buttons_from_path_buttons (self : CustomShelf) (name : str)
  (paths : list str) :
  shelf self = Some name ->
  forall (w w' : world) (ids : list nat),
    add_buttons_from_path self paths w = Ok (ids, w') ->
    exists new,
      widgets_of name (host w') = widgets_of name (host w) ++ new /\
      Forall2 (rendered_from self) paths new /\
      map widget_id new = ids /\
      ids = seq (next_id (host w)) (length paths) /\
      next_id (host w') = next_id (host w) + length paths /\
      map widget_label new
      = map (fun p => replace_chr underscore space (fst (filter_py_mel p)))
          paths /\
      map widget_command new = map (fun p => snd (filter_py_mel p)) paths /\
      (path_exists (fs w) (icon_path self) = true ->
       fs w' = fs w /\ Forall2 (rendered_on self (fs w)) paths new).
Proof.
  intros Hshelf w w' ids H.
  destruct (add_buttons_from_path_spec self name paths Hshelf w w' ids H)
    as [new [Hw [Hf [Hid [Hseq [Hnext Hex]]]]]].
  exists new. repeat split; auto; try (apply Hex; assumption).
  - clear - Hf. induction Hf as [|p b ps bs [icon [fs0 [fs1 [_ Hb]]]] _ IH];
      simpl; auto.
    rewrite IH. f_equal. rewrite Hb. reflexivity.
  - clear - Hf. induction Hf as [|p b ps bs [icon [fs0 [fs1 [_ Hb]]]] _ IH];
      simpl; auto.
    rewrite IH. f_equal. rewrite Hb. reflexivity.
Qed.

Lemma add_buttons_from_path_buttons_witness :
  let paths := [py "shelf/rigging/snap.py"; py "shelf/rigging/my_tool.mel"] in
  shelf fresh_self = Some S_name /\
  exists w',
    add_buttons_from_path fresh_self paths (fresh_world scenario_fs)
    = Ok ([0; 1], w') /\
    widgets_of S_name (host w')
    = [ShelfButton 0 (py "snap") (python_command (py "shelf/rigging/snap.py"))
         None (py "shelf/icons/commandButton.png") [];
       ShelfButton 1 (py "my tool")
         (mel_command (py "shelf/rigging/my_tool.mel"))
         None (py "shelf/icons/commandButton.png") []].
Proof.
  intros paths. split; [reflexivity|].
  destruct (add_buttons_from_path fresh_self paths (fresh_world scenario_fs))
    as [[ids w']|] eqn:E; [|discriminate E].
  destruct (add_buttons_from_path_buttons fresh_self S_name paths eq_refl
              (fresh_world scenario_fs) w' ids E)
    as [new [Hw [_ [_ [Hseq _]]]]].
  exists w'. rewrite Hseq. split; [reflexivity|].
  injection E as _ <-. reflexivity.
Defined.

Lemma dcc_command_for_eq (tree : node) (path : str) :
  snd (filter_py_mel (find_dcc_command tree path)) = dcc_command_for tree path.
Proof. exact (dcc_command_cases tree path). Qed.

(** The double-click command of every flat button.  When
    [add_buttons_from_path] returns, on a list of any length, the button
    of each path has as double-click command the mel command of
    [stem_dcc.mel] if that file exists, else the python command of
    [stem_dcc.py] if that one exists, else the empty string, where [stem]
    is the script's directory joined with the part of its base name
    before the first dot, and the files are looked up in the file system
    the path's icon resolution left: the one before the call when the icon
    folder exists then.  For a base name [foo.py] or [foo.mel] with no
    dot in [foo], the part before the first dot is [foo].  For a single
    path the call returns whenever the icon resolves and the layout
    exists. *)
Lemma flat_button_dcc_command (self : CustomShelf) (name : str)
  (paths : list str) (w : world) :
  shelf self = Some name ->
  (forall ids w',
      add_buttons_from_path self paths w = Ok (ids, w') ->
      exists new,
        widgets_of name (host w') = widgets_of name (host w) ++ new /\
        Forall2
          (fun p button =>
             exists icon fs0 fs1,
               find_icon self (fst (filter_py_mel p)) fs0 = Ok (icon, fs1) /\
               widget_dcc button = dcc_command_for fs1 p)
          paths new /\
        (path_exists (fs w) (icon_path self) = true ->
         Forall2 (fun p button => widget_dcc button = dcc_command_for (fs w) p)
           paths new)) /\
  (forall path foo ext,
      basename path = foo ++ "."%char :: ext ->
      forallb (fun c => negb (chr_eqb c "."%char)) foo = true ->
      split_first "."%char (basename path) = foo) /\
  (forall path icon fs1 ws,
      find_icon self (fst (filter_py_mel path)) (fs w) = Ok (icon, fs1) ->
      dict_get name (layouts (host w)) = Some ws ->
      exists button,
        add_buttons_from_path self [path] w
        = Ok ([next_id (host w)],
              {| fs := fs1; host := with_widget name ws button (host w) |}) /\
        widget_dcc button = dcc_command_for fs1 path).
Proof.
  intros Hshelf. split; [|split].
  - intros ids w' H.
    destruct (add_buttons_from_path_spec self name paths Hshelf w w' ids H)
      as [new [Hw [Hf [_ [_ [_ Hex]]]]]].
    exists new. split; [exact Hw|]. split.
    + apply (Forall2_impl (rendered_from self)); [|exact Hf].
      intros p b [icon [fs0 [fs1 [Hi Hb]]]].
      exists icon, fs0, fs1. split; [exact Hi|].
      rewrite Hb. unfold flat_button. cbn [widget_dcc].
      apply dcc_command_for_eq.
    + intros He. destruct (Hex He) as [_ Hon].
      apply (Forall2_impl (rendered_on self (fs w))); [|exact Hon].
      intros p b [icon [_ Hb]].
      rewrite Hb. unfold flat_button. cbn [widget_dcc].
      apply dcc_command_for_eq.
  - intros path foo ext Hb Hfoo. rewrite Hb. now apply split_first_stem.
  - intros path icon fs1 ws Hicon Hlay.
    exists (flat_button (next_id (host w)) path icon fs1). split.
    + apply add_buttons_from_path_one; auto.
    + unfold flat_button. cbn [widget_dcc]. apply dcc_command_for_eq.
Qed.

Lemma flat_button_dcc_command_snap :
  let paths := [py "shelf/rigging/my.py"; py "shelf/rigging/snap.py"] in
  let w := fresh_world dotted_fs in
  shelf fresh_self = Some S_name /\
  path_exists (fs w) (icon_path fresh_self) = true /\
  exists ids w',
    add_buttons_from_path fresh_self paths w = Ok (ids, w') /\
    map widget_dcc (widgets_of S_name (host w'))
    = [[]; python_command (py "shelf/rigging/snap_dcc.py")].
Proof.
  intros paths w. split; [reflexivity|]. split; [reflexivity|].
  destruct (add_buttons_from_path fresh_self paths w)
    as [[ids w']|] eqn:E; [|discriminate E].
  destruct (flat_button_dcc_command fresh_self S_name paths w eq_refl)
    as [Hspec _].
  destruct (Hspec ids w' E) as [new [Hw [_ Hon]]].
  specialize (Hon eq_refl).
  exists ids, w'. split; [reflexivity|]. rewrite Hw, map_app.
  inversion Hon as [|p1 b1 l1 new1 H1 Hon1]; subst.
  inversion Hon1 as [|p2 b2 l2 new2 H2 Hon2]; subst.
  inversion Hon2; subst.
  cbn [map]. rewrite H1, H2. reflexivity.
Defined.

(** Popup rendering, when it returns, has left the object's shelf, names,
    paths, categories and flat tool lists as they were and has added to
    its registry only: every folder's name is registered and the names
    registered before stay registered.  The dictionary passed keeps every
    folder in its place and has under each folder a list no longer than
    before; [create_shelf] passes one of the object's own dictionaries, so
    there the object's popup lists are the ones that get shorter.  The
    host has the layouts it had. *)
Theorem add_popup_button_from_paths_frame (self self' : CustomShelf)
  (d d' : dict (list str)) (w w' : world) :
  add_popup_button_from_paths self d w = Ok (self', d', w') ->
  (shelf_directory self' = shelf_directory self /\
   icon_path self' = icon_path self /\
   shelf_name self' = shelf_name self /\
   categories self' = categories self /\
   tool_paths self' = tool_paths self /\
   shelf self' = shelf self) /\
  dict_keys d' = dict_keys d /\
  (forall k l, dict_get k d = Some l ->
               exists l', dict_get k d' = Some l' /\ length l' <= length l) /\
  (forall k, In k (dict_keys d) ->
             dict_has (basename k) (popup_menus self') = true) /\
  (forall k, dict_has k (popup_menus self) = true ->
             dict_has k (popup_menus self') = true) /\
  dict_keys (layouts (host w')) = dict_keys (layouts (host w)).
Proof.
  intros H. unfold add_popup_button_from_paths in H.
  apply popup_buttons_loop_frame in H.
  destruct H as [Hr H]. split; [|exact H].
  unfold only_registry_differs in Hr. rewrite <- Hr. repeat split.
Qed.

Lemma add_popup_button_from_paths_frame_witness :
  let folder := py "shelf/rigging/align" in
  let d := [(folder, [py "shelf/rigging/align/align.py";
                      py "shelf/rigging/align/align_helper.py"])] in
  exists self' d' w',
    add_popup_button_from_paths fresh_self d (fresh_world scenario_fs)
    = Ok (self', d', w') /\
    dict_keys d' = [folder] /\
    d' = [(folder, [py "shelf/rigging/align/align_helper.py"])] /\
    dict_has (py "align") (popup_menus self') = true.
Proof.
  intros folder d.
  destruct (add_popup_button_from_paths fresh_self d (fresh_world scenario_fs))
    as [[[self' d'] w']|] eqn:E; [|discriminate E].
  destruct (add_popup_button_from_paths_frame fresh_self self' d d'
              (fresh_world scenario_fs) w' E) as [_ [Hk [_ [Hreg _]]]].
  exists self', d', w'. split; [reflexivity|]. split; [exact Hk|].
  split; [injection E as _ <- _; reflexivity|].
  exact (Hreg folder (or_introl eq_refl)).
Defined.

(* ------------------------------------------------------------------ *)
(** ** Which popup menu a new menu item belongs to *)

Lemma all_after_set (k : str) (ws : list widget) (w : widget)
  (ls : dict (list widget)) :
  dict_get k ls = Some ws ->
  forall x, In x (flat_map snd (dict_set k (ws ++ [w]) ls)) ->
            In x (flat_map snd ls) \/ x = w.
Proof.
  induction ls as [|[k' v] ls IH]; simpl; [discriminate|].
  destruct (str_eqb k' k); simpl; intros H x Hx.
  - injection H as ->. rewrite !in_app_iff in Hx. rewrite in_app_iff.
    simpl in Hx. intuition.
  - rewrite in_app_iff in *. destruct Hx as [Hx|Hx]; auto.
    destruct (IH H x Hx); auto.
Qed.

Lemma add_widget_all (parent : option str) (mk : nat -> widget) (u u' : ui)
  (id : nat) :
  add_widget parent mk u = Ok (id, u') ->
  id = next_id u /\ next_id u' = S (next_id u) /\
  forall x, In x (all_widgets u') -> In x (all_widgets u) \/ x = mk (next_id u).
Proof.
  unfold add_widget, all_widgets. intros H.
  destruct parent as [name|]; [|discriminate].
  destruct (dict_get name (layouts u)) as [ws|] eqn:Hg; [|discriminate].
  injection H as <- <-. cbn [next_id layouts].
  repeat split; auto. now apply all_after_set.
Qed.

Lemma add_item_to_all (popup : nat) (w : widget) (ls : dict (list widget)) :
  forall ls',
    add_item_to popup w ls = Some ls' ->
    forall x, In x (flat_map snd ls') -> In x (flat_map snd ls) \/ x = w.
Proof.
  induction ls as [|[k ws] ls IH]; simpl; intros ls' H x Hx; [discriminate|].
  destruct (existsb (is_button popup) ws).
  - injection H as <-. simpl in Hx. rewrite !in_app_iff in Hx.
    rewrite in_app_iff. simpl in Hx. intuition.
  - destruct (add_item_to popup w ls) as [t'|]; [|discriminate].
    injection H as <-. simpl in Hx. rewrite in_app_iff in *.
    destruct Hx as [Hx|Hx]; auto.
    destruct (IH t' eq_refl x Hx); auto.
Qed.

Lemma menuItem_all (label st : str) (popup : nat) (command : str)
  (u u' : ui) (id : nat) :
  menuItem label st popup command u = Ok (id, u') ->
  next_id u' = S (next_id u) /\
  forall x, In x (all_widgets u') ->
            In x (all_widgets u) \/
            x = MenuItem (next_id u) label st popup command.
Proof.
  unfold menuItem, all_widgets. intros H.
  destruct (add_item_to _ _ _) as [ls|] eqn:E; [|discriminate].
  injection H as _ <-. cbn [next_id layouts]. split; auto.
  eapply add_item_to_all; eauto.
Qed.

Lemma no_new_item_of_refl (popup : nat) (u : ui) : no_new_item_of popup u u.
Proof. intros x Hx _. exact Hx. Qed.

Lemma no_new_item_of_trans (popup : nat) (u1 u2 u3 : ui) :
  no_new_item_of popup u1 u2 -> no_new_item_of popup u2 u3 ->
  no_new_item_of popup u1 u3.
Proof. intros H12 H23 x Hx Hi. apply H12; auto. Qed.

Lemma add_buttons_from_path_items (popup : nat) (self : CustomShelf)
  (paths : list str) :
  forall (w w' : world) (ids : list nat),
    add_buttons_from_path self paths w = Ok (ids, w') ->
    no_new_item_of popup (host w) (host w') /\
    ids = seq (next_id (host w)) (length paths) /\
    next_id (host w') = next_id (host w) + length paths.
Proof.
  induction paths as [|path rest IH]; cbn [add_buttons_from_path];
    intros w w' ids H.
  - injection H as <- <-. split; [apply no_new_item_of_refl|].
    simpl. auto.
  - inv_bind H. destruct a as [icon fs1].
    inv_bind H. destruct a as [button u1]. rename E0 into Hbtn.
    inv_bind H. destruct a as [bs w2]. rename E0 into Hrest.
    injection H as <- <-.
    unfold shelfButton in Hbtn. apply add_widget_all in Hbtn.
    destruct Hbtn as [-> [Hn Hall]].
    destruct (IH _ _ _ Hrest) as [Hitems [Hseq Hnext]].
    cbn [host] in *. split; [|split].
    + eapply no_new_item_of_trans; [|exact Hitems].
      intros x Hx Hi. destruct (Hall x Hx) as [Hin | ->]; [assumption|].
      discriminate Hi.
    + cbn [length seq]. rewrite Hseq, Hn. reflexivity.
    + rewrite Hnext, Hn. cbn [length]. lia.
Qed.

Lemma add_menu_items_items (id popup : nat) (scripts : list str) :
  popup <> id ->
  forall (u u' : ui),
    add_menu_items popup scripts u = Ok u' ->
    no_new_item_of id u u' /\ next_id u <= next_id u'.
Proof.
  intros Hne. induction scripts as [|script rest IH]; cbn [add_menu_items];
    intros u u' H.
  - injection H as <-. split; [apply no_new_item_of_refl | lia].
  - destruct (re_search re_init script); [eauto|].
    inv_bind H. destruct a as [i u1].
    apply menuItem_all in E. destruct E as [Hn Hall].
    destruct (IH _ _ H) as [Hitems Hle]. split; [|lia].
    eapply no_new_item_of_trans; [|exact Hitems].
    intros x Hx Hi. destruct (Hall x Hx) as [Hin | ->]; [assumption|].
    cbn [is_item_of] in Hi. apply Nat.eqb_eq in Hi. contradiction.
Qed.

Lemma popupMenuArray_first (button : nat) (u : ui) (menus : list nat)
  (popup : nat) :
  popupMenuArray button u = Ok menus -> first menus = Ok popup ->
  popup = button.
Proof.
  unfold popupMenuArray.
  destruct (existsb _ _); [|discriminate].
  intros [= <-]. simpl. now intros [= <-].
Qed.

(** A round of popup rendering puts its menu items into the popup menu of
    the button it creates, whose identifier is the host's next one. *)
Lemma add_popup_button_items (id : nat) (self self' : CustomShelf)
  (tool_path : str) (d d' : dict (list str)) (w w' : world) :
  add_popup_button self tool_path d w = Ok (self', d', w') ->
  next_id (host w) < next_id (host w') /\
  (next_id (host w) <> id -> no_new_item_of id (host w) (host w')).
Proof.
  unfold add_popup_button. intros H.
  inv_bind H. inv_bind H. destruct a0 as [button_script scripts1].
  inv_bind H. destruct a0 as [new_button w1]. rename E1 into Hb.
  inv_bind H. rename E1 into Hmenus.
  inv_bind H. rename E1 into Hfirst.
  inv_bind H. rename E1 into Hitems.
  injection H as _ _ <-. cbn [host].
  pose proof (popupMenuArray_first _ _ _ _ Hmenus Hfirst) as ->.
  assert (Hbtn : new_button = next_id (host w) /\
                 next_id (host w1) = S (next_id (host w)) /\
                 no_new_item_of id (host w) (host w1)).
  { destruct button_script as [script_path|].
    - destruct (add_buttons_from_path self [script_path] w)
        as [[buttons w2]|] eqn:Eb; cbn [bind] in Hb; [|discriminate].
      destruct (first buttons) as [b|] eqn:Ef; cbn [bind] in Hb;
        [|discriminate].
      injection Hb as <- <-.
      apply (add_buttons_from_path_items id) in Eb.
      destruct Eb as [Hi [-> Hn]]. cbn [length seq first] in *.
      injection Ef as <-. repeat split; auto. lia.
    - destruct (find_icon self (basename tool_path) (fs w))
        as [[icon fs1]|] eqn:Ei; cbn [bind] in Hb; [|discriminate].
      destruct (shelfButton (basename tool_path) [] None icon (shelf self) []
                  (host w)) as [[b u1]|] eqn:Es; cbn [bind] in Hb;
        [|discriminate].
      injection Hb as <- <-. cbn [host].
      unfold shelfButton in Es. apply add_widget_all in Es.
      destruct Es as [-> [Hn Hall]]. repeat split; auto.
      intros x Hx Hi. destruct (Hall x Hx) as [Hin | ->]; [assumption|].
      discriminate Hi. }
  destruct Hbtn as [-> [Hn Hi]].
  destruct (Nat.eq_dec (next_id (host w)) id) as [Heq|Hne].
  - split; [|contradiction].
    assert (Hle : next_id (host w1) <= next_id a2).
    { clear - Hitems. revert Hitems. generalize (host w1).
      induction scripts1 as [|s rest IH]; cbn [add_menu_items]; intros u H.
      - injection H as <-. lia.
      - destruct (re_search re_init s); [eauto|].
        inv_bind H. destruct a as [i u1].
        apply menuItem_all in E. destruct E as [Hn _].
        apply IH in H. lia. }
    lia.
  - destruct (add_menu_items_items id _ scripts1 Hne _ _ Hitems)
      as [Hi2 Hle].
    split; [lia|]. intros _.
    eapply no_new_item_of_trans; eauto.
Qed.

Lemma popup_buttons_loop_next (keys : list str) :
  forall (self self' : CustomShelf) (d d' : dict (list str)) (w w' : world),
    popup_buttons_loop self keys d w = Ok (self', d', w') ->
    next_id (host w) <= next_id (host w').
Proof.
  induction keys as [|k keys IH]; cbn [popup_buttons_loop];
    intros self self' d d' w w' H.
  - injection H as _ _ <-. lia.
  - inv_bind H. destruct a as [[self1 d1] w1].
    apply (add_popup_button_items 0) in E. destruct E as [Hlt _].
    apply IH in H. lia.
Qed.

(** The rounds before a button is created and the rounds after it put
    nothing into its popup menu. *)
Lemma popup_buttons_loop_items (id : nat) (keys : list str) :
  forall (self self' : CustomShelf) (d d' : dict (list str)) (w w' : world),
    popup_buttons_loop self keys d w = Ok (self', d', w') ->
    id < next_id (host w) \/ next_id (host w') <= id ->
    no_new_item_of id (host w) (host w').
Proof.
  induction keys as [|k keys IH]; cbn [popup_buttons_loop];
    intros self self' d d' w w' H Hid.
  - injection H as _ _ <-. apply no_new_item_of_refl.
  - inv_bind H. destruct a as [[self1 d1] w1].
    pose proof (popup_buttons_loop_next _ _ _ _ _ _ _ H) as Hle.
    apply (add_popup_button_items id) in E. destruct E as [Hlt Hround].
    eapply no_new_item_of_trans.
    + apply Hround. lia.
    + apply (IH _ _ _ _ _ _ H). lia.
Qed.

(* ------------------------------------------------------------------ *)
(** ** Widgets stay where they are *)

Lemma add_widget_keeps (name : str) (parent : option str)
  (mk : nat -> widget) (u u' : ui) (id : nat) :
  add_widget parent mk u = Ok (id, u') ->
  forall x, In x (widgets_of name u) -> In x (widgets_of name u').
Proof.
  unfold add_widget, widgets_of. intros H x Hx.
  destruct parent as [p|]; [|discriminate].
  destruct (dict_get p (layouts u)) as [ws|] eqn:Hg; [|discriminate].
  injection H as _ <-. cbn [layouts].
  destruct (str_eqb p name) eqn:E.
  - apply str_eqb_eq in E. subst p. rewrite dict_get_set_same.
    rewrite Hg in Hx. apply in_app_iff. auto.
  - apply str_eqb_neq in E. now rewrite dict_get_set_other.
Qed.

Lemma add_item_to_keeps (name : str) (popup : nat) (w : widget)
  (ls : dict (list widget)) :
  forall ls',
    add_item_to popup w ls = Some ls' ->
    forall x,
      In x (match dict_get name ls with Some ws => ws | None => [] end) ->
      In x (match dict_get name ls' with Some ws => ws | None => [] end).
Proof.
  induction ls as [|[k ws] ls IH]; simpl; intros ls' H x Hx; [discriminate|].
  destruct (existsb (is_button popup) ws).
  - injection H as <-. simpl. destruct (str_eqb k name); auto.
    apply in_app_iff. auto.
  - destruct (add_item_to popup w ls) as [t'|]; [|discriminate].
    injection H as <-. simpl. destruct (str_eqb k name); auto.
Qed.

Lemma menuItem_keeps (name label st : str) (popup : nat) (command : str)
  (u u' : ui) (id : nat) :
  menuItem label st popup command u = Ok (id, u') ->
  forall x, In x (widgets_of name u) -> In x (widgets_of name u').
Proof.
  unfold menuItem, widgets_of. intros H.
  destruct (add_item_to _ _ _) as [ls|] eqn:E; [|discriminate].
  injection H as _ <-. cbn [layouts].
  eapply add_item_to_keeps; eauto.
Qed.

Lemma add_buttons_from_path_keeps (name : str) (self : CustomShelf)
  (paths : list str) :
  forall (w w' : world) (ids : list nat),
    add_buttons_from_path self paths w = Ok (ids, w') ->
    forall x, In x (widgets_of name (host w)) ->
              In x (widgets_of name (host w')).
Proof.
  induction paths as [|path rest IH]; cbn [add_buttons_from_path];
    intros w w' ids H x Hx.
  - now injection H as _ <-.
  - inv_bind H. destruct a as [icon fs1].
    inv_bind H. destruct a as [button u1]. rename E0 into Hbtn.
    inv_bind H. destruct a as [bs w2]. rename E0 into Hrest.
    injection H as _ <-.
    apply (IH _ _ _ Hrest). cbn [host].
    unfold shelfButton in Hbtn. eapply add_widget_keeps; eauto.
Qed.

Lemma add_menu_items_keeps (name : str) (popup : nat) (scripts : list str) :
  forall (u u' : ui),
    add_menu_items popup scripts u = Ok u' ->
    forall x, In x (widgets_of name u) -> In x (widgets_of name u').
Proof.
  induction scripts as [|script rest IH]; cbn [add_menu_items];
    intros u u' H x Hx.
  - now injection H as <-.
  - destruct (re_search re_init script); [eauto|].
    inv_bind H. destruct a as [id u1].
    apply (IH _ _ H). eapply menuItem_keeps; eauto.
Qed.

Lemma add_popup_button_keeps (name : str) (self self' : CustomShelf)
  (tool_path : str) (d d' : dict (list str)) (w w' : world) :
  add_popup_button self tool_path d w = Ok (self', d', w') ->
  forall x, In x (widgets_of name (host w)) ->
            In x (widgets_of name (host w')).
Proof.
  unfold add_popup_button. intros H x Hx.
  inv_bind H. inv_bind H. destruct a0 as [button_script scripts1].
  inv_bind H. destruct a0 as [new_button w1]. rename E1 into Hb.
  inv_bind H. inv_bind H.
  destruct (add_menu_items a1 scripts1 (host w1)) as [u2|] eqn:Hitems;
    cbn [bind] in H; [|discriminate].
  injection H as _ _ <-. cbn [host].
  apply (add_menu_items_keeps name _ _ _ _ Hitems).
  destruct button_script as [script_path|].
  - destruct (add_buttons_from_path self [script_path] w)
      as [[buttons w2]|] eqn:Eb; cbn [bind] in Hb; [|discriminate].
    destruct (first buttons) as [b|] eqn:Ef; cbn [bind] in Hb;
      [|discriminate].
    injection Hb as _ <-.
    eapply add_buttons_from_path_keeps; eauto.
  - destruct (find_icon self (basename tool_path) (fs w))
      as [[icon fs1]|] eqn:Ei; cbn [bind] in Hb; [|discriminate].
    destruct (shelfButton (basename tool_path) [] None icon (shelf self) []
                (host w)) as [[b u1]|] eqn:Es; cbn [bind] in Hb;
      [|discriminate].
    injection Hb as _ <-. cbn [host].
    unfold shelfButton in Es. eapply add_widget_keeps; eauto.
Qed.

Lemma popup_buttons_loop_keeps (name : str) (keys : list str) :
  forall (self self' : CustomShelf) (d d' : dict (list str)) (w w' : world),
    popup_buttons_loop self keys d w = Ok (self', d', w') ->
    forall x, In x (widgets_of name (host w)) ->
              In x (widgets_of name (host w')).
Proof.
  induction keys as [|k keys IH]; cbn [popup_buttons_loop];
    intros self self' d d' w w' H x Hx.
  - now injection H as _ _ <-.
  - inv_bind H. destruct a as [[self1 d1] w1].
    apply (IH _ _ _ _ _ _ H).
    eapply add_popup_button_keeps; eauto.
Qed.

(** ** The round of one folder among the rounds of the others *)

Lemma popup_buttons_loop_split (k : str) (keys : list str) :
  forall (self self' : CustomShelf) (d d' : dict (list str)) (w w' : world),
    popup_buttons_loop self keys d w = Ok (self', d', w') ->
    In k keys ->
    exists keys1 keys2 self1 d1 w1 self2 d2 w2,
      keys = keys1 ++ k :: keys2 /\
      ~ In k keys1 /\
      popup_buttons_loop self keys1 d w = Ok (self1, d1, w1) /\
      add_popup_button self1 k d1 w1 = Ok (self2, d2, w2) /\
      popup_buttons_loop self2 keys2 d2 w2 = Ok (self', d', w').
Proof.
  induction keys as [|key keys IH]; intros self self' d d' w w' H Hin.
  - contradiction.
  - cbn [popup_buttons_loop] in H.
    destruct (add_popup_button self key d w) as [[[selfa da] wa]|] eqn:E;
      cbn [bind] in H; [|discriminate].
    destruct (str_eqb key k) eqn:Ek.
    + apply str_eqb_eq in Ek. subst key.
      exists [], keys, self, d, w, selfa, da, wa.
      repeat split; auto.
    + apply str_eqb_neq in Ek.
      destruct Hin as [Heq|Hin]; [contradiction|].
      destruct (IH _ _ _ _ _ _ H Hin)
        as [keys1 [keys2 [self1 [d1 [w1 [self2 [d2 [w2
             [-> [Hn [H1 [H2 H3]]]]]]]]]]]].
      exists (key :: keys1), keys2, self1, d1, w1, self2, d2, w2.
      repeat split; auto.
      * intros [Heq|Hin']; [contradiction | auto].
      * cbn [popup_buttons_loop]. rewrite E. cbn [bind]. exact H1.
Qed.

Lemma popup_buttons_loop_other (k : str) (keys : list str) :
  ~ In k keys ->
  forall (self self' : CustomShelf) (d d' : dict (list str)) (w w' : world),
    popup_buttons_loop self keys d w = Ok (self', d', w') ->
    dict_get k d' = dict_get k d.
Proof.
  induction keys as [|key keys IH]; cbn [popup_buttons_loop];
    intros Hn self self' d d' w w' H.
  - now injection H as _ <- _.
  - inv_bind H. destruct a as [[self1 d1] w1].
    apply add_popup_button_frame in E.
    destruct E as [_ [[scripts [scripts1 [_ [-> _]]]] _]].
    rewrite (IH (fun Hin => Hn (or_intror Hin)) _ _ _ _ _ _ H).
    apply dict_get_set_other. intros ->. apply Hn. left. reflexivity.
Qed.

Lemma dict_get_In_keys {V} (k : str) (v : V) (d : dict V) :
  dict_get k d = Some v -> In k (dict_keys d).
Proof.
  unfold dict_keys. induction d as [|[k' v'] d IH]; simpl; [discriminate|].
  destruct (str_eqb k' k) eqn:E; auto.
  apply str_eqb_eq in E. auto.
Qed.

Lemma add_popup_button_empty_inv (self self' : CustomShelf) (k name : str)
  (d d' : dict (list str)) (w w' : world) :
  add_popup_button self k d w = Ok (self', d', w') ->
  dict_get k d = Some [] ->
  shelf self = Some name ->
  exists icon fs1 ws,
    find_icon self (basename k) (fs w) = Ok (icon, fs1) /\
    dict_get name (layouts (host w)) = Some ws /\
    w' = {| fs := fs1;
            host := with_widget name ws
                      (ShelfButton (next_id (host w)) (basename k) [] None
                         icon [])
                      (host w) |}.
Proof.
  intros H Hd Hshelf.
  destruct (find_icon self (basename k) (fs w)) as [[icon fs1]|] eqn:Ei.
  - destruct (dict_get name (layouts (host w))) as [ws|] eqn:Hg.
    + rewrite (add_popup_button_empty self k d w icon fs1 name ws
                 Hd Ei Hshelf Hg) in H.
      injection H as _ _ <-. exists icon, fs1, ws. auto.
    + unfold add_popup_button, dict_item in H. rewrite Hd in H.
      cbn [bind take_button_script] in H. rewrite Ei in H. cbn [bind] in H.
      unfold shelfButton, add_widget in H. rewrite Hshelf, Hg in H.
      discriminate H.
  - unfold add_popup_button, dict_item in H. rewrite Hd in H.
    cbn [bind take_button_script] in H. rewrite Ei in H. discriminate H.
Qed.

Lemma find_icon_same_path (a b : CustomShelf) (t : str) (tree : node) :
  icon_path a = icon_path b -> find_icon a t tree = find_icon b t tree.
Proof. unfold find_icon. now intros ->. Qed.

(** C9. A popup folder whose file list is empty still gets its button,
    alone or among any number of other folders.  When
    [add_popup_button_from_paths] returns on a dictionary that holds the
    folder with an empty list, the shelf layout holds a button created by
    the call, labelled with the folder's name, with an empty command, an
    empty double-click command and the icon resolved for that name; the
    call has put no menu item into that button's popup menu, and the
    folder's name is registered.  The folder's own round returns with
    exactly that button appended, and nothing else, as soon as the icon
    resolves and the layout exists. *)
Theorem C9_empty_popup_folder (self : CustomShelf) (name tool_path : str)
  (d : dict (list str)) (w : world) :
  shelf self = Some name ->
  dict_get tool_path d = Some [] ->
  (forall self' d' w',
      add_popup_button_from_paths self d w = Ok (self', d', w') ->
      exists id icon fs0 fs1,
        next_id (host w) <= id < next_id (host w') /\
        find_icon self (basename tool_path) fs0 = Ok (icon, fs1) /\
        In (ShelfButton id (basename tool_path) [] None icon [])
           (widgets_of name (host w')) /\
        no_new_item_of id (host w) (host w') /\
        dict_has (basename tool_path) (popup_menus self') = true) /\
  (forall icon fs1 ws,
      find_icon self (basename tool_path) (fs w) = Ok (icon, fs1) ->
      dict_get name (layouts (host w)) = Some ws ->
      let button :=
        ShelfButton (next_id (host w)) (basename tool_path) [] None icon [] in
      let self' :=
        set_popup_menus self
          (dict_set (basename tool_path) (next_id (host w))
             (popup_menus self)) in
      let w' := {| fs := fs1; host := with_widget name ws button (host w) |} in
      add_popup_button self tool_path d w
      = Ok (self', dict_set tool_path [] d, w') /\
      widgets_of name (host w') = ws ++ [button] /\
      filter is_menu_item (widgets_of name (host w'))
      = filter is_menu_item ws).
Proof.
  intros Hshelf Hd. split.
  - intros self' d' w' H. unfold add_popup_button_from_paths in H.
    pose proof (popup_buttons_loop_frame _ _ _ _ _ _ _ H)
      as [_ [_ [_ [Hreg _]]]].
    pose proof (dict_get_In_keys _ _ _ Hd) as Hin.
    destruct (popup_buttons_loop_split tool_path _ _ _ _ _ _ _ H Hin)
      as [keys1 [keys2 [self1 [d1 [w1 [self2 [d2 [w2
           [Hkeys [Hn [H1 [H2 H3]]]]]]]]]]]].
    pose proof (popup_buttons_loop_frame _ _ _ _ _ _ _ H1) as [Hr1 _].
    apply only_registry_differs_fields in Hr1.
    destruct Hr1 as [Hs1 [_ [Hip1 _]]].
    rewrite Hshelf in Hs1.
    pose proof (popup_buttons_loop_other tool_path keys1 Hn _ _ _ _ _ _ H1)
      as Hd1.
    rewrite Hd in Hd1.
    destruct (add_popup_button_empty_inv self1 self2 tool_path name d1 d2
                w1 w2 H2 Hd1 Hs1) as [icon [fs1 [ws [Hicon [Hg Hw2]]]]].
    pose proof (popup_buttons_loop_next _ _ _ _ _ _ _ H1) as Hle1.
    pose proof (popup_buttons_loop_next _ _ _ _ _ _ _ H3) as Hle2.
    assert (Hn2 : next_id (host w2) = S (next_id (host w1)))
      by (rewrite Hw2; reflexivity).
    exists (next_id (host w1)), icon, (fs w1), fs1.
    split; [lia|].
    split; [rewrite <- Hicon; symmetry; now apply find_icon_same_path|].
    split; [|split].
    + apply (popup_buttons_loop_keeps name _ _ _ _ _ _ _ H3).
      rewrite Hw2. unfold widgets_of. cbn [host with_widget layouts].
      rewrite dict_get_set_same. apply in_app_iff. right. left. reflexivity.
    + eapply no_new_item_of_trans;
        [apply (popup_buttons_loop_items _ _ _ _ _ _ _ _ H1); lia|].
      eapply no_new_item_of_trans;
        [|apply (popup_buttons_loop_items _ _ _ _ _ _ _ _ H3); lia].
      intros x Hx Hi. rewrite Hw2 in Hx. unfold all_widgets in *.
      cbn [host with_widget layouts] in Hx.
      destruct (all_after_set name ws _ _ Hg x Hx) as [Hin' | ->];
        [assumption | discriminate Hi].
    + apply Hreg. exact Hin.
  - intros icon fs1 ws Hicon Hlay button self' w'.
    assert (Hw : widgets_of name (host w') = ws ++ [button]).
    { unfold widgets_of, w'. simpl. now rewrite dict_get_set_same. }
    split; [now apply add_popup_button_empty|].
    split; [exact Hw|].
    rewrite Hw, filter_app. simpl. apply app_nil_r.
Qed.

Lemma C9_empty_popup_folder_witness :
  let align := py "shelf/rigging/align" in
  let empty := py "shelf/rigging/empty" in
  let other := py "shelf/rigging/other" in
  let d := [(align, [py "shelf/rigging/align/align.py";
                     py "shelf/rigging/align/align_helper.py"]);
            (empty, []);
            (other, [py "shelf/rigging/other/extra.mel"])] in
  let w := fresh_world scenario_fs in
  shelf fresh_self = Some S_name /\
  dict_get empty d = Some [] /\
  exists self' d' w',
    add_popup_button_from_paths fresh_self d w = Ok (self', d', w') /\
    map (fun x => (widget_id x, widget_label x, is_menu_item x))
      (widgets_of S_name (host w'))
    = [(0, py "align", false); (1, py "align helper", true);
       (2, py "empty", false);
       (3, py "other", false); (4, py "extra", true)] /\
    exists id icon,
      In (ShelfButton id (py "empty") [] None icon [])
         (widgets_of S_name (host w')) /\
      no_new_item_of id (host w) (host w').
Proof.
  intros align empty other d w.
  split; [reflexivity|]. split; [reflexivity|].
  destruct (add_popup_button_from_paths fresh_self d w)
    as [[[self' d'] w']|] eqn:E; [|discriminate E].
  destruct (C9_empty_popup_folder fresh_self S_name empty d w eq_refl eq_refl)
    as [Hloop _].
  destruct (Hloop self' d' w' E) as [id [icon [fs0 [fs1 [_ [_ [Hb [Hi _]]]]]]]].
  exists self', d', w'. split; [reflexivity|].
  split; [injection E as _ _ <-; reflexivity|].
  exists id, icon. split; assumption.
Defined.
